(** * gralloc_gbm: buffer-object lifecycle and the lock/map state machine

    A shallow embedding of [gralloc_gbm.cpp]: format and usage translation,
    allocation and import against the GBM backend, handle validation with
    per-process ownership, and the lock / unlock state machine.

    C [int] values are integers of [Z] with the 32-bit wrap-around written
    out where the code does arithmetic; pointers that come from the backend
    are integers with [0] for [NULL]; the [gralloc_gbm_bo_t] a handle points
    to is carried inside the handle ([None] is the [NULL] data pointer). *)

From Stdlib Require Import String.
From Stdlib Require Import ZArith List Bool Lia.
Import ListNotations.
Local Open Scope Z_scope.

(** ** Machine integers *)

Definition INT_MAX : Z := 2147483647.
Definition INT_MIN : Z := -2147483648.

(** Value of a 32-bit two's complement pattern ([int]). *)
Definition to_int (z : Z) : Z := (z + 2 ^ 31) mod 2 ^ 32 - 2 ^ 31.

(** Conversion to [uint32_t]. *)
Definition to_u32 (z : Z) : Z := z mod 2 ^ 32.

Definition int_add (a b : Z) : Z := to_int (a + b).
Definition int_sub (a b : Z) : Z := to_int (a - b).
(** [a / b] on [int]: C division truncates toward zero. *)
Definition int_div (a b : Z) : Z := to_int (Z.quot a b).
(** [a / b] on [uint32_t]. *)
Definition u32_add (a b : Z) : Z := to_u32 (a + b).
Definition u32_div (a b : Z) : Z := a / b.

Definition is_int (z : Z) : Prop := INT_MIN <= z <= INT_MAX.

(** ** Constants of the platform headers *)

(** errno.h *)
Definition EINVAL : Z := 22.
Definition ENOMEM : Z := 12.

(** hardware/gralloc.h *)
Definition GRALLOC_USAGE_SW_READ_OFTEN : Z := 0x3.
Definition GRALLOC_USAGE_SW_READ_MASK : Z := 0xF.
Definition GRALLOC_USAGE_SW_WRITE_OFTEN : Z := 0x30.
Definition GRALLOC_USAGE_SW_WRITE_MASK : Z := 0xF0.
Definition GRALLOC_USAGE_HW_TEXTURE : Z := 0x100.
Definition GRALLOC_USAGE_HW_RENDER : Z := 0x200.
Definition GRALLOC_USAGE_HW_FB : Z := 0x1000.
Definition GRALLOC_USAGE_CURSOR : Z := 0x8000.

(** system/graphics.h *)
Definition HAL_PIXEL_FORMAT_RGBA_8888 : Z := 1.
Definition HAL_PIXEL_FORMAT_RGBX_8888 : Z := 2.
Definition HAL_PIXEL_FORMAT_RGB_888 : Z := 3.
Definition HAL_PIXEL_FORMAT_RGB_565 : Z := 4.
Definition HAL_PIXEL_FORMAT_BGRA_8888 : Z := 5.
Definition HAL_PIXEL_FORMAT_YCbCr_422_SP : Z := 0x10.
Definition HAL_PIXEL_FORMAT_YCrCb_420_SP : Z := 0x11.
Definition HAL_PIXEL_FORMAT_YV12 : Z := 0x32315659.

(** gbm.h *)
Definition gbm_fourcc_code (a b c d : Z) : Z :=
  Z.lor (Z.lor a (Z.shiftl b 8)) (Z.lor (Z.shiftl c 16) (Z.shiftl d 24)).

Definition GBM_FORMAT_ABGR8888 : Z := Eval cbv in gbm_fourcc_code 65 66 50 52.
Definition GBM_FORMAT_XBGR8888 : Z := Eval cbv in gbm_fourcc_code 88 66 50 52.
Definition GBM_FORMAT_RGB888 : Z := Eval cbv in gbm_fourcc_code 82 71 50 52.
Definition GBM_FORMAT_RGB565 : Z := Eval cbv in gbm_fourcc_code 82 71 49 54.
Definition GBM_FORMAT_ARGB8888 : Z := Eval cbv in gbm_fourcc_code 65 82 50 52.
Definition GBM_FORMAT_GR88 : Z := Eval cbv in gbm_fourcc_code 71 82 56 56.

Definition GBM_BO_USE_SCANOUT : Z := 1.
Definition GBM_BO_USE_CURSOR : Z := 2.
Definition GBM_BO_USE_RENDERING : Z := 4.
Definition GBM_BO_USE_LINEAR : Z := 16.

Definition GBM_BO_TRANSFER_READ : Z := 1.
Definition GBM_BO_TRANSFER_WRITE : Z := 2.

(** ** Format and usage translation *)

Definition get_gbm_format (format : Z) : Z :=
  if format =? HAL_PIXEL_FORMAT_RGBA_8888 then GBM_FORMAT_ABGR8888
  else if format =? HAL_PIXEL_FORMAT_RGBX_8888 then GBM_FORMAT_XBGR8888
  else if format =? HAL_PIXEL_FORMAT_RGB_888 then GBM_FORMAT_RGB888
  else if format =? HAL_PIXEL_FORMAT_RGB_565 then GBM_FORMAT_RGB565
  else if format =? HAL_PIXEL_FORMAT_BGRA_8888 then GBM_FORMAT_ARGB8888
  else if format =? HAL_PIXEL_FORMAT_YV12 then GBM_FORMAT_GR88
  else if format =? HAL_PIXEL_FORMAT_YCbCr_422_SP then 0
  else if format =? HAL_PIXEL_FORMAT_YCrCb_420_SP then 0
  else 0.

(** A C condition [a & b]: some bit of [b] is set in [a]. *)
Definition test (a b : Z) : bool := negb (Z.land a b =? 0).

Definition get_pipe_bind (usage : Z) : Z :=
  let bind := 0 in
  let bind :=
    if test usage (Z.lor GRALLOC_USAGE_SW_READ_OFTEN GRALLOC_USAGE_SW_WRITE_OFTEN)
    then Z.lor bind GBM_BO_USE_LINEAR else bind in
  let bind :=
    if test usage GRALLOC_USAGE_CURSOR then bind else bind in
  let bind :=
    if test usage (Z.lor GRALLOC_USAGE_HW_RENDER GRALLOC_USAGE_HW_TEXTURE)
    then Z.lor bind GBM_BO_USE_RENDERING else bind in
  let bind :=
    if test usage GRALLOC_USAGE_HW_FB
    then Z.lor bind GBM_BO_USE_SCANOUT else bind in
  bind.

(** ** Data model *)

Record gralloc_gbm_bo_t : Type := mk_bo {
  bo : Z;          (* struct gbm_bo *, 0 is NULL *)
  map_data : Z;    (* void *, 0 is NULL *)
  lock_count : Z;
  locked_for : Z
}.

(** [new struct gralloc_gbm_bo_t()]: every member zero. *)
Definition new_gralloc_gbm_bo_t : gralloc_gbm_bo_t := mk_bo 0 0 0 0.

Record native_handle_t : Type := mk_native {
  version : Z;
  numInts : Z;
  numFds : Z
}.

Record gralloc_gbm_handle_t : Type := mk_handle {
  base : native_handle_t;
  prime_fd : Z;
  magic : Z;
  width : Z;
  height : Z;
  format : Z;
  usage : Z;
  stride : Z;
  modifier : Z;
  data_owner : Z;
  data : option gralloc_gbm_bo_t
}.

Definition set_data_owner (h : gralloc_gbm_handle_t) (o : Z) : gralloc_gbm_handle_t :=
  mk_handle (base h) (prime_fd h) (magic h) (width h) (height h) (format h)
            (usage h) (stride h) (modifier h) o (data h).

Definition set_data (h : gralloc_gbm_handle_t) (d : option gralloc_gbm_bo_t)
  : gralloc_gbm_handle_t :=
  mk_handle (base h) (prime_fd h) (magic h) (width h) (height h) (format h)
            (usage h) (stride h) (modifier h) (data_owner h) d.

Definition set_export (h : gralloc_gbm_handle_t) (fd st md : Z) : gralloc_gbm_handle_t :=
  mk_handle (base h) fd (magic h) (width h) (height h) (format h)
            (usage h) st md (data_owner h) (data h).

Definition set_map_data (b : gralloc_gbm_bo_t) (p : Z) : gralloc_gbm_bo_t :=
  mk_bo (bo b) p (lock_count b) (locked_for b).

(** [struct gbm_import_fd_data] / [gbm_import_fd_modifier_data]: width,
    height and format are [uint32_t] and the file descriptor is an [int] in
    both; the stride is the [uint32_t stride] of the first and the
    [int strides[0]] of the second, which also has the 64-bit modifier. *)
Record gbm_import_data : Type := mk_import_data {
  imp_width : Z;
  imp_height : Z;
  imp_format : Z;
  imp_fd : Z;
  imp_stride : Z;
  imp_modifier : Z
}.

(** The backend primitives the file invokes, with the arguments as the
    backend receives them ([uint32_t] extents, formats and flags). *)
Inductive gbm_call : Type :=
| GbmBoCreate (gbm width height format flags : Z)
| GbmBoImport (gbm : Z) (with_modifier : bool) (d : gbm_import_data)
| GbmBoGetFd (b : Z)
| GbmBoGetStride (b : Z)
| GbmBoGetModifier (b : Z)
| GbmBoMap (b x y width height flags : Z)
| GbmBoUnmap (b map_data : Z)
| GbmBoDestroy (b : Z).

(** What [gbm_bo_map] hands back: the address it returns and what it stores
    through its [stride] and [map_data] out-parameters. *)
Record gbm_map_reply : Type := mk_reply {
  reply_addr : Z;
  reply_stride : Z;
  reply_map_data : Z
}.

(** The GBM library as this file sees it.  Every answer may depend on the
    calls made before it (most recent first), so a backend with state of its
    own is covered. *)
Class GbmBackend : Type := {
  gbm_bo_create : list gbm_call -> Z -> Z -> Z -> Z -> Z -> Z;
  gbm_bo_import : list gbm_call -> Z -> gbm_import_data -> Z;
  gbm_bo_get_fd : list gbm_call -> Z -> Z;
  gbm_bo_get_stride : list gbm_call -> Z -> Z;
  gbm_bo_get_modifier : list gbm_call -> Z -> Z;
  gbm_bo_map : list gbm_call -> Z -> Z -> Z -> Z -> Z -> Z -> gbm_map_reply
}.

(** What the build and the process fix: the constants of the handle layout
    ([gralloc_drm_handle.h]), whether [gbm.h] has the import with modifier,
    and the answer of [getpid()]. *)
Class Platform : Type := {
  sizeof_native_handle_t : Z;
  GRALLOC_GBM_HANDLE_NUM_INTS : Z;
  GRALLOC_GBM_HANDLE_NUM_FDS : Z;
  GRALLOC_GBM_HANDLE_MAGIC : Z;
  GBM_BO_IMPORT_FD_MODIFIER : bool;
  getpid : Z
}.

(** Process-wide state next to the handle a call works on: the memoised pid
    ([static int32_t gralloc_gbm_pid]), the object behind the
    [buffer_handle_t] argument ([None] for a [NULL] handle), and the backend
    calls made so far, most recent first. *)
Record machine : Type := mk_machine {
  gralloc_gbm_pid : Z;
  mem : option gralloc_gbm_handle_t;
  trace : list gbm_call
}.

Definition set_mem (m : machine) (h : option gralloc_gbm_handle_t) : machine :=
  mk_machine (gralloc_gbm_pid m) h (trace m).

Definition set_trace (m : machine) (tr : list gbm_call) : machine :=
  mk_machine (gralloc_gbm_pid m) (mem m) tr.

Section Gralloc.

Context {P : Platform} {B : GbmBackend}.

(** ** BO engine *)

(** The extents [gbm_alloc] passes to [gbm_bo_create], as [int] locals. *)
Definition gbm_alloc_geometry (handle : gralloc_gbm_handle_t) : Z * Z :=
  let bind := to_int (get_pipe_bind (usage handle)) in
  let w := width handle in
  let h := height handle in
  let w := if test bind GBM_BO_USE_CURSOR
           then (if width handle <? 64 then 64 else w) else w in
  let h := if test bind GBM_BO_USE_CURSOR
           then (if height handle <? 64 then 64 else h) else h in
  if format handle =? HAL_PIXEL_FORMAT_YV12
  then (int_div w 2, int_add h (int_div (height handle) 2))
  else (w, h).

(** [data.width] and [data.height] as [gbm_import] fills them in; both
    members are [uint32_t], so the halving of the width is unsigned. *)
Definition gbm_import_geometry (handle : gralloc_gbm_handle_t) : Z * Z :=
  let dw := to_u32 (width handle) in
  let dh := to_u32 (height handle) in
  if format handle =? HAL_PIXEL_FORMAT_YV12
  then (u32_div dw 2, u32_add dh (to_u32 (int_div (height handle) 2)))
  else (dw, dh).

(** The locals [w] and [h] of [gbm_map] after the planar adjustment. *)
Definition gbm_map_geometry (handle : gralloc_gbm_handle_t) (w h : Z) : Z * Z :=
  if format handle =? HAL_PIXEL_FORMAT_YV12
  then (int_div w 2, int_add h (int_div h 2))
  else (w, h).

(** [gbm_import] and [gbm_alloc] take the trace of backend calls and give
    it back extended.  [new] does not return [NULL], so the test
    [if (!buf)] after it is dead in both and left out. *)
Definition gbm_import (gbm : Z) (handle : gralloc_gbm_handle_t) (tr : list gbm_call)
  : option gralloc_gbm_bo_t * list gbm_call :=
  let fmt := to_int (get_gbm_format (format handle)) in
  if prime_fd handle <? 0 then (None, tr)
  else
    let buf := new_gralloc_gbm_bo_t in
    let '(dw, dh) := gbm_import_geometry handle in
    let d := mk_import_data dw dh (to_u32 fmt) (prime_fd handle)
               (if GBM_BO_IMPORT_FD_MODIFIER then stride handle
                else to_u32 (stride handle))
               (if GBM_BO_IMPORT_FD_MODIFIER then modifier handle else 0) in
    let b := gbm_bo_import tr gbm d in
    let tr := GbmBoImport gbm GBM_BO_IMPORT_FD_MODIFIER d :: tr in
    if b =? 0 then (None, tr)
    else (Some (mk_bo b (map_data buf) (lock_count buf) (locked_for buf)), tr).

Definition gbm_alloc (gbm : Z) (handle : gralloc_gbm_handle_t) (tr : list gbm_call)
  : option gralloc_gbm_bo_t * gralloc_gbm_handle_t * list gbm_call :=
  let fmt := to_int (get_gbm_format (format handle)) in
  let bind := to_int (get_pipe_bind (usage handle)) in
  let buf := new_gralloc_gbm_bo_t in
  let '(w, h) := gbm_alloc_geometry handle in
  let b := gbm_bo_create tr gbm (to_u32 w) (to_u32 h) (to_u32 fmt) (to_u32 bind) in
  let tr := GbmBoCreate gbm (to_u32 w) (to_u32 h) (to_u32 fmt) (to_u32 bind) :: tr in
  if b =? 0 then (None, handle, tr)
  else
    let fd := gbm_bo_get_fd tr b in
    let tr := GbmBoGetFd b :: tr in
    let st := to_int (gbm_bo_get_stride tr b) in
    let tr := GbmBoGetStride b :: tr in
    let '(md, tr) :=
      if GBM_BO_IMPORT_FD_MODIFIER
      then (gbm_bo_get_modifier tr b, GbmBoGetModifier b :: tr)
      else (modifier handle, tr) in
    (Some (mk_bo b (map_data buf) (lock_count buf) (locked_for buf)),
     set_export handle fd st md, tr).

Definition gbm_free (b : gralloc_gbm_bo_t) (tr : list gbm_call) : list gbm_call :=
  GbmBoDestroy (bo b) :: tr.

(** Modelled from the spec: [gralloc_gbm_handle] of [gralloc_drm_handle.h],
    which is not among the sources.  A handle is trusted only when the size
    tag, the two element counts and the magic constant are the ones
    [create_bo_handle] writes; anything else, and [NULL], gives [NULL]. *)
Definition gralloc_gbm_handle (_handle : option gralloc_gbm_handle_t)
  : option gralloc_gbm_handle_t :=
  match _handle with
  | None => None
  | Some h =>
      if (version (base h) =? sizeof_native_handle_t)
         && (numInts (base h) =? GRALLOC_GBM_HANDLE_NUM_INTS)
         && (numFds (base h) =? GRALLOC_GBM_HANDLE_NUM_FDS)
         && (magic h =? GRALLOC_GBM_HANDLE_MAGIC)
      then Some h else None
  end.

Definition gralloc_gbm_bo_from_handle (handle : option gralloc_gbm_handle_t)
  : option gralloc_gbm_bo_t :=
  let pid := getpid in
  match gralloc_gbm_handle handle with
  | None => None
  | Some gbm_handle =>
      if data_owner gbm_handle =? pid then data gbm_handle else None
  end.

(** [gbm_map] on the handle and object its caller resolved.  The result is
    the error code, what was stored through [addr] ([None] when nothing
    was), the object and the trace.  The [assert] on the stride is compiled
    out. *)
Definition gbm_map (gbm_handle : gralloc_gbm_handle_t) (b : gralloc_gbm_bo_t)
    (x y w h enable_write : Z) (tr : list gbm_call)
  : Z * option Z * gralloc_gbm_bo_t * list gbm_call :=
  let err := 0 in
  let flags := GBM_BO_TRANSFER_READ in
  if negb (map_data b =? 0) then (- EINVAL, None, b, tr)
  else
    let '(w, h) := gbm_map_geometry gbm_handle w h in
    let flags := if negb (enable_write =? 0)
                 then Z.lor flags GBM_BO_TRANSFER_WRITE else flags in
    let ex := to_u32 (int_add x w) in
    let ey := to_u32 (int_add y h) in
    let r := gbm_bo_map tr (bo b) 0 0 ex ey (to_u32 flags) in
    let tr := GbmBoMap (bo b) 0 0 ex ey (to_u32 flags) :: tr in
    let b := set_map_data b (reply_map_data r) in
    if reply_addr r =? 0 then (- ENOMEM, Some 0, b, tr)
    else (err, Some (reply_addr r), b, tr).

Definition gbm_unmap (b : gralloc_gbm_bo_t) (tr : list gbm_call)
  : gralloc_gbm_bo_t * list gbm_call :=
  (set_map_data b 0, GbmBoUnmap (bo b) (map_data b) :: tr).

(** ** Handle registry *)

Definition gralloc_gbm_get_pid (m : machine) : Z * machine :=
  if gralloc_gbm_pid m =? 0
  then (getpid, mk_machine getpid (mem m) (trace m))
  else (gralloc_gbm_pid m, m).

(** The process identity [validate_handle] compares owners with. *)
Definition current_pid (m : machine) : Z := fst (gralloc_gbm_get_pid m).

Definition validate_handle (gbm : Z) (m : machine)
  : option gralloc_gbm_bo_t * machine :=
  match gralloc_gbm_handle (mem m) with
  | None => (None, m)
  | Some handle =>
      let '(pid, m) := gralloc_gbm_get_pid m in
      if data_owner handle =? pid then (data handle, m)
      else if gbm =? 0 then (None, m)
      else
        let '(b, tr) := gbm_import gbm handle (trace m) in
        let '(pid, m) := gralloc_gbm_get_pid (set_trace m tr) in
        (b, set_mem m (Some (set_data (set_data_owner handle pid) b)))
  end.

Definition gralloc_gbm_handle_register (gbm : Z) (m : machine) : Z * machine :=
  let '(b, m) := validate_handle gbm m in
  (match b with Some _ => 0 | None => - EINVAL end, m).

Definition gralloc_gbm_handle_unregister (m : machine) : Z * machine :=
  let '(b, m) := validate_handle 0 m in
  match b with
  | None => (- EINVAL, m)
  | Some b =>
      let tr := gbm_free b (trace m) in
      (0, mk_machine (gralloc_gbm_pid m)
            (option_map (fun gbm_handle =>
                           set_data (set_data_owner gbm_handle 0) None)
                        (mem m))
            tr)
  end.

Definition create_bo_handle (w h fmt usg : Z) : gralloc_gbm_handle_t :=
  mk_handle
    (mk_native sizeof_native_handle_t GRALLOC_GBM_HANDLE_NUM_INTS
               GRALLOC_GBM_HANDLE_NUM_FDS)
    (-1) GRALLOC_GBM_HANDLE_MAGIC w h fmt usg 0 0 0 None.

(** [gralloc_gbm_bo_create]: on success the new handle is the one the
    machine holds afterwards. *)
Definition gralloc_gbm_bo_create (gbm w h fmt usg : Z) (m : machine)
  : option gralloc_gbm_handle_t * machine :=
  let handle := create_bo_handle w h fmt usg in
  let '(b, handle, tr) := gbm_alloc gbm handle (trace m) in
  match b with
  | None => (None, set_trace m tr)
  | Some b =>
      let '(pid, m) := gralloc_gbm_get_pid (set_trace m tr) in
      let handle := set_data (set_data_owner handle pid) (Some b) in
      (Some handle, set_mem m (Some handle))
  end.

(** ** Lock / unlock *)

Definition SW_ACCESS_MASK : Z :=
  Z.lor GRALLOC_USAGE_SW_WRITE_MASK GRALLOC_USAGE_SW_READ_MASK.

(** The first test of [gralloc_gbm_bo_lock]: the request asks for nothing
    the handle was not created with, or the creation usage has a bit of
    SW_READ_OFTEN, HW_FB or HW_TEXTURE. *)
Definition lock_permitted (created req : Z) : bool :=
  (Z.land created req =? req)
  || negb (negb (test created GRALLOC_USAGE_SW_READ_OFTEN)
           && negb (test created GRALLOC_USAGE_HW_FB)
           && negb (test created GRALLOC_USAGE_HW_TEXTURE)).

(** The second test: further locks only with usages already granted. *)
Definition lock_compatible (b : gralloc_gbm_bo_t) (req : Z) : bool :=
  negb (negb (lock_count b =? 0) && negb (Z.land (locked_for b) req =? req)).

Definition store_bo (m : machine) (gbm_handle : gralloc_gbm_handle_t)
    (b : gralloc_gbm_bo_t) (tr : list gbm_call) : machine :=
  mk_machine (gralloc_gbm_pid m) (Some (set_data gbm_handle (Some b))) tr.

(** The result is the status, what was stored through [addr], and the
    machine afterwards. *)
Definition gralloc_gbm_bo_lock (req x y w h : Z) (m : machine)
  : Z * option Z * machine :=
  match gralloc_gbm_handle (mem m), gralloc_gbm_bo_from_handle (mem m) with
  | Some gbm_handle, Some b =>
      if negb (lock_permitted (usage gbm_handle) req) then (- EINVAL, None, m)
      else if negb (lock_compatible b req) then (- EINVAL, None, m)
      else
        let u := Z.lor req (locked_for b) in
        let '(err, addr, b, tr) :=
          if test u SW_ACCESS_MASK
          then
            let write := if test u GRALLOC_USAGE_SW_WRITE_MASK then 1 else 0 in
            gbm_map gbm_handle b x y w h write (trace m)
          else (0, None, b, trace m) in
        if negb (err =? 0) then (err, addr, store_bo m gbm_handle b tr)
        else
          let b := mk_bo (bo b) (map_data b) (int_add (lock_count b) 1)
                         (Z.lor (locked_for b) u) in
          (0, addr, store_bo m gbm_handle b tr)
  | _, _ => (- EINVAL, None, m)
  end.

Definition gralloc_gbm_bo_unlock (m : machine) : Z * machine :=
  match gralloc_gbm_handle (mem m), gralloc_gbm_bo_from_handle (mem m) with
  | Some gbm_handle, Some b =>
      let mapped := Z.land (locked_for b) SW_ACCESS_MASK in
      if lock_count b =? 0 then (0, m)
      else
        let '(b, tr) := if negb (mapped =? 0) then gbm_unmap b (trace m)
                        else (b, trace m) in
        let b := mk_bo (bo b) (map_data b) (int_sub (lock_count b) 1)
                       (locked_for b) in
        let b := if lock_count b =? 0
                 then mk_bo (bo b) (map_data b) (lock_count b) 0 else b in
        (0, store_bo m gbm_handle b tr)
  | _, _ => (- EINVAL, m)
  end.

(** ** Sequences of calls *)

Inductive lock_op : Type :=
| Lock (req x y w h : Z)
| Unlock.

(** Status and machine after one lock or unlock call. *)
Definition lock_call (o : lock_op) (m : machine) : Z * machine :=
  match o with
  | Lock req x y w h =>
      let '(err, _, m) := gralloc_gbm_bo_lock req x y w h m in (err, m)
  | Unlock => gralloc_gbm_bo_unlock m
  end.

Fixpoint run (ops : list lock_op) (m : machine) : machine :=
  match ops with
  | [] => m
  | o :: ops => run ops (snd (lock_call o m))
  end.

Inductive registry_op : Type :=
| Resolve (gbm : Z)
| Register (gbm : Z)
| Unregister.

(** Whether one registry call succeeded, and the machine after it. *)
Definition registry_call (o : registry_op) (m : machine) : bool * machine :=
  match o with
  | Resolve gbm =>
      let '(b, m) := validate_handle gbm m in
      (match b with Some _ => true | None => false end, m)
  | Register gbm =>
      let '(r, m) := gralloc_gbm_handle_register gbm m in (r =? 0, m)
  | Unregister =>
      let '(r, m) := gralloc_gbm_handle_unregister m in (r =? 0, m)
  end.

Fixpoint registry_run (ops : list registry_op) (m : machine)
  : list bool * machine :=
  match ops with
  | [] => ([], m)
  | o :: ops =>
      let '(r, m) := registry_call o m in
      let '(rs, m) := registry_run ops m in
      (r :: rs, m)
  end.

(** ** Predicates of the statements *)

(** The usage holds a CPU (software) read or write intent. *)
Definition cpu_intent (u : Z) : bool := test u SW_ACCESS_MASK.

(** Every bit of [req] is in [mask]. *)
Definition subset (req mask : Z) : Prop := Z.land mask req = req.

(** The creation usage has a bit of one of the three flags that waive the
    permission test. *)
Definition waived (created : Z) : bool :=
  test created GRALLOC_USAGE_SW_READ_OFTEN
  || test created GRALLOC_USAGE_HW_FB
  || test created GRALLOC_USAGE_HW_TEXTURE.

(** An object as [gbm_alloc] and [gbm_import] leave it: never locked. *)
Definition fresh_bo (b : gralloc_gbm_bo_t) : Prop :=
  map_data b = 0 /\ lock_count b = 0 /\ locked_for b = 0.

(** The machine holds a valid handle owned by this process with a live
    object: lock and unlock resolve it. *)
Definition resolves (m : machine) (gbm_handle : gralloc_gbm_handle_t)
    (b : gralloc_gbm_bo_t) : Prop :=
  gralloc_gbm_handle (mem m) = Some gbm_handle
  /\ gralloc_gbm_bo_from_handle (mem m) = Some b.

Definition fresh_machine (m : machine) : Prop :=
  forall gbm_handle b, resolves m gbm_handle b -> fresh_bo b.

(** The invariant of the data model: mapped exactly when locked with a CPU
    intent. *)
Definition mapping_invariant (b : gralloc_gbm_bo_t) : Prop :=
  map_data b <> 0 <-> (0 < lock_count b /\ cpu_intent (locked_for b) = true).

(** What the lock state machine maintains: an unmapped object has no CPU
    intent granted, a mapped one is locked exactly once with a CPU intent;
    and whatever is granted passed the permission test. *)
Definition lock_inv (gbm_handle : gralloc_gbm_handle_t) (b : gralloc_gbm_bo_t)
  : Prop :=
  ((map_data b = 0 /\ cpu_intent (locked_for b) = false)
   \/ (map_data b <> 0 /\ lock_count b = 1 /\ cpu_intent (locked_for b) = true))
  /\ lock_permitted (usage gbm_handle) (locked_for b) = true.

Definition machine_inv (m : machine) : Prop :=
  forall gbm_handle b, resolves m gbm_handle b -> lock_inv gbm_handle b.

(** Every object the machine resolves has a count between [0] and [n]. *)
Definition count_within (n : Z) (m : machine) : Prop :=
  forall gbm_handle b, resolves m gbm_handle b -> 0 <= lock_count b <= n.

(** The contract of [gbm_bo_map]: it returns [NULL] and leaves [*map_data]
    alone when it fails, and stores a token when it returns an address. *)
Definition map_contract : Prop :=
  forall tr b x y w h flags,
    reply_addr (gbm_bo_map tr b x y w h flags) = 0
    <-> reply_map_data (gbm_bo_map tr b x y w h flags) = 0.

(** No [gbm_bo_map] among the calls. *)
Fixpoint map_calls (tr : list gbm_call) : nat :=
  match tr with
  | [] => 0%nat
  | GbmBoMap _ _ _ _ _ _ :: tr => S (map_calls tr)
  | _ :: tr => map_calls tr
  end.

Fixpoint import_calls (tr : list gbm_call) : nat :=
  match tr with
  | [] => 0%nat
  | GbmBoImport _ _ _ :: tr => S (import_calls tr)
  | _ :: tr => import_calls tr
  end.

(** ** Three statements as the specification words them *)

(** A further lock on a locked object: refused when the request is not
    within the granted usage, and otherwise granted and counted. *)
Definition nested_lock_as_stated (m : machine) (req x y w h : Z) : Prop :=
  forall gbm_handle b,
    resolves m gbm_handle b -> 0 < lock_count b ->
    (~ subset req (locked_for b) ->
     fst (fst (gralloc_gbm_bo_lock req x y w h m)) = - EINVAL)
    /\ (subset req (locked_for b) ->
        fst (fst (gralloc_gbm_bo_lock req x y w h m)) = 0
        /\ exists gbm_handle' b',
             resolves (snd (gralloc_gbm_bo_lock req x y w h m)) gbm_handle' b'
             /\ lock_count b' = lock_count b + 1).

(** Register on a handle with a negative file descriptor: fails, and the
    owner field stays zero. *)
Definition register_bad_fd_as_stated (gbm : Z) (m : machine) : Prop :=
  forall handle,
    gralloc_gbm_handle (mem m) = Some handle -> prime_fd handle < 0 ->
    gbm <> 0 ->
    fst (gralloc_gbm_handle_register gbm m) <> 0
    /\ exists handle',
         mem (snd (gralloc_gbm_handle_register gbm m)) = Some handle'
         /\ data_owner handle' = 0.

(** A lock whose combined usage has no CPU intent: nothing is mapped, the
    call succeeds and is counted. *)
Definition hw_lock_as_stated (m : machine) (req x y w h : Z) : Prop :=
  forall gbm_handle b,
    resolves m gbm_handle b ->
    cpu_intent (Z.lor req (locked_for b)) = false ->
    map_calls (trace (snd (gralloc_gbm_bo_lock req x y w h m)))
      = map_calls (trace m)
    /\ fst (fst (gralloc_gbm_bo_lock req x y w h m)) = 0
    /\ exists gbm_handle' b',
         resolves (snd (gralloc_gbm_bo_lock req x y w h m)) gbm_handle' b'
         /\ lock_count b' = lock_count b + 1.

End Gralloc.

(** ** Concrete platform, backends and machines *)

Definition sample_platform : Platform := {|
  sizeof_native_handle_t := 12;
  GRALLOC_GBM_HANDLE_NUM_INTS := 13;
  GRALLOC_GBM_HANDLE_NUM_FDS := 1;
  GRALLOC_GBM_HANDLE_MAGIC := 0x5f47424d;
  GBM_BO_IMPORT_FD_MODIFIER := true;
  getpid := 1234
|}.

(** A backend on which every primitive succeeds. *)
Definition working_backend : GbmBackend := {|
  gbm_bo_create := fun _ _ _ _ _ _ => 0x5000;
  gbm_bo_import := fun _ _ _ => 0x6000;
  gbm_bo_get_fd := fun _ _ => 7;
  gbm_bo_get_stride := fun _ _ => 2560;
  gbm_bo_get_modifier := fun _ _ => 0;
  gbm_bo_map := fun _ _ _ _ _ _ _ => mk_reply 0x7f000000 2560 0x8000
|}.

(** A backend that refuses imports and mappings. *)
Definition refusing_backend : GbmBackend := {|
  gbm_bo_create := fun _ _ _ _ _ _ => 0x5000;
  gbm_bo_import := fun _ _ _ => 0;
  gbm_bo_get_fd := fun _ _ => 7;
  gbm_bo_get_stride := fun _ _ => 2560;
  gbm_bo_get_modifier := fun _ _ => 0;
  gbm_bo_map := fun _ _ _ _ _ _ _ => mk_reply 0 0 0
|}.

Definition gbm_device : Z := 0x4000.

Definition boot : machine := mk_machine 0 None [].

(** The machine after [gralloc_gbm_bo_create] of a 640x480 buffer. *)
Definition created (fmt usg : Z) : machine :=
  snd (@gralloc_gbm_bo_create sample_platform working_backend
         gbm_device 640 480 fmt usg boot).

(** A handle received from another process: shape and file descriptor as
    sent, owner and data reference cleared. *)
Definition received_handle (fd : Z) : gralloc_gbm_handle_t :=
  mk_handle (mk_native 12 13 1) fd 0x5f47424d 640 480
    HAL_PIXEL_FORMAT_RGBA_8888 GRALLOC_USAGE_HW_RENDER 2560 0 0 None.

Definition received (fd : Z) : machine :=
  mk_machine 0 (Some (received_handle fd)) [].

(** The handle of a 640x480 YV12 buffer with its file descriptor and stride
    filled in. *)
Definition yv12_handle : gralloc_gbm_handle_t :=
  set_export
    (@create_bo_handle sample_platform 640 480 HAL_PIXEL_FORMAT_YV12
       GRALLOC_USAGE_SW_WRITE_OFTEN)
    7 640 0.

(** The machine after creating a buffer for CPU reads and locking it once
    for them. *)
Definition locked_once : machine :=
  snd (@gralloc_gbm_bo_lock sample_platform working_backend
         GRALLOC_USAGE_SW_READ_OFTEN 0 0 640 480
         (created HAL_PIXEL_FORMAT_RGBA_8888 GRALLOC_USAGE_SW_READ_OFTEN)).

(** A render target, and the same locked once for rendering. *)
Definition render_target : machine :=
  created HAL_PIXEL_FORMAT_RGBA_8888 GRALLOC_USAGE_HW_RENDER.

Definition render_locked : machine :=
  @run sample_platform working_backend
    [Lock GRALLOC_USAGE_HW_RENDER 0 0 640 480] render_target.

(** ** The device *)

(** fcntl.h *)
Definition O_RDWR : Z := 2.
Definition O_CLOEXEC : Z := 0x80000.

(** What [gbm_dev_create] and [gbm_dev_destroy] ask of the system and of
    the GBM library; an [Open] is recorded with the descriptor it gave. *)
Inductive sys_call : Type :=
| PropertyGet (key default_value : string)
| Open (path : string) (flags : Z) (fd : Z)
| Close (fd : Z)
| GbmCreateDevice (fd : Z)
| GbmDeviceGetFd (gbm : Z)
| GbmDeviceDestroy (gbm : Z).

(** The answers, each of which may depend on the calls made before it. *)
Class DeviceEnv : Type := {
  property_get : list sys_call -> string -> string -> string;
  open : list sys_call -> string -> Z -> Z;
  gbm_create_device : list sys_call -> Z -> Z;
  gbm_device_get_fd : list sys_call -> Z -> Z
}.

Section Device.

Context {E : DeviceEnv}.

Definition gbm_dev_destroy (gbm : Z) (tr : list sys_call) : list sys_call :=
  let fd := gbm_device_get_fd tr gbm in
  let tr := GbmDeviceGetFd gbm :: tr in
  let tr := GbmDeviceDestroy gbm :: tr in
  Close fd :: tr.

Definition gbm_dev_create (tr : list sys_call) : Z * list sys_call :=
  let path := property_get tr "gralloc.gbm.device" "/dev/dri/renderD128" in
  let tr := PropertyGet "gralloc.gbm.device" "/dev/dri/renderD128" :: tr in
  let fd := open tr path (Z.lor O_RDWR O_CLOEXEC) in
  let tr := Open path (Z.lor O_RDWR O_CLOEXEC) fd :: tr in
  if fd <? 0 then (0, tr)
  else
    let gbm := gbm_create_device tr fd in
    let tr := GbmCreateDevice fd :: tr in
    if gbm =? 0 then (gbm, Close fd :: tr) else (gbm, tr).

End Device.

(** The file descriptors a trace (most recent call first) leaves open. *)
Fixpoint open_fds (tr : list sys_call) : list Z :=
  match tr with
  | [] => []
  | c :: tr =>
      match c with
      | Open _ _ fd => if fd <? 0 then open_fds tr else fd :: open_fds tr
      | Close fd => remove Z.eq_dec fd (open_fds tr)
      | _ => open_fds tr
      end
  end.

(** ** Further predicates of the statements *)

Definition gralloc_gbm_bo_to_gbm_bo (_bo : gralloc_gbm_bo_t) : Z := bo _bo.

Definition supported_formats : list Z :=
  [HAL_PIXEL_FORMAT_RGBA_8888; HAL_PIXEL_FORMAT_RGBX_8888;
   HAL_PIXEL_FORMAT_RGB_888; HAL_PIXEL_FORMAT_RGB_565;
   HAL_PIXEL_FORMAT_BGRA_8888; HAL_PIXEL_FORMAT_YV12].

(** The usage bits [get_pipe_bind] looks at. *)
Definition BIND_USAGE_MASK : Z :=
  Z.lor (Z.lor GRALLOC_USAGE_SW_READ_OFTEN GRALLOC_USAGE_SW_WRITE_OFTEN)
        (Z.lor (Z.lor GRALLOC_USAGE_HW_RENDER GRALLOC_USAGE_HW_TEXTURE)
               GRALLOC_USAGE_HW_FB).

(** The calls that only read a property of a backend object. *)
Definition is_query (c : gbm_call) : bool :=
  match c with
  | GbmBoGetFd _ | GbmBoGetStride _ | GbmBoGetModifier _ => true
  | _ => false
  end.

(** An object locked [n] times for [req] without a mapping. *)
Definition locked_times (b : gralloc_gbm_bo_t) (n : Z) (req : Z)
  : gralloc_gbm_bo_t :=
  mk_bo (bo b) 0 n (if n =? 0 then 0 else req).

(** ** More concrete environments *)

Definition sample_device : DeviceEnv := {|
  property_get := fun _ _ default_value => default_value;
  open := fun _ _ _ => 9;
  gbm_create_device := fun _ _ => 0x4000;
  gbm_device_get_fd := fun _ _ => 9
|}.

(** A system where the node opens but GBM refuses it. *)
Definition refusing_device : DeviceEnv := {|
  property_get := fun _ _ default_value => default_value;
  open := fun _ _ _ => 9;
  gbm_create_device := fun _ _ => 0;
  gbm_device_get_fd := fun _ _ => 9
|}.

(** A process whose memoised pid is that of its parent. *)
Definition forked : machine := mk_machine 999 None [].

(** A received handle with a usable file descriptor, after Register. *)
Definition registered : machine :=
  snd (@gralloc_gbm_handle_register sample_platform working_backend
         gbm_device (received 5)).

(** A backend out of memory: nothing can be created. *)
Definition exhausted_backend : GbmBackend := {|
  gbm_bo_create := fun _ _ _ _ _ _ => 0;
  gbm_bo_import := fun _ _ _ => 0;
  gbm_bo_get_fd := fun _ _ => -1;
  gbm_bo_get_stride := fun _ _ => 0;
  gbm_bo_get_modifier := fun _ _ => 0;
  gbm_bo_map := fun _ _ _ _ _ _ _ => mk_reply 0 0 0
|}.

(** ** The permission test as the specification words it *)

(** hardware/gralloc.h *)
Definition GRALLOC_USAGE_SW_READ_RARELY : Z := 0x2.

(** The creation usage includes a flag: every bit of the flag is set. *)
Definition includes (created flag : Z) : Prop := Z.land created flag = flag.

(** The bits of the three flags whose presence waives the subset test. *)
Definition WAIVER_BITS : Z :=
  Z.lor (Z.lor GRALLOC_USAGE_SW_READ_OFTEN GRALLOC_USAGE_HW_FB)
        GRALLOC_USAGE_HW_TEXTURE.

(** A request outside the creation usage fails unless that usage includes
    SW_READ_OFTEN, HW_FB or HW_TEXTURE. *)
Definition lock_permission_as_stated {P : Platform} {B : GbmBackend}
    (m : machine) (req x y w h : Z) : Prop :=
  forall gbm_handle b,
    resolves m gbm_handle b ->
    ~ subset req (usage gbm_handle) ->
    ~ (includes (usage gbm_handle) GRALLOC_USAGE_SW_READ_OFTEN
       \/ includes (usage gbm_handle) GRALLOC_USAGE_HW_FB
       \/ includes (usage gbm_handle) GRALLOC_USAGE_HW_TEXTURE) ->
    fst (fst (gralloc_gbm_bo_lock req x y w h m)) = - EINVAL.

(** A buffer created for occasional CPU reads, and one created as a
    texture. *)
Definition rarely_read_buffer : machine :=
  created HAL_PIXEL_FORMAT_RGBA_8888 GRALLOC_USAGE_SW_READ_RARELY.

Definition texture_buffer : machine :=
  created HAL_PIXEL_FORMAT_RGBA_8888 GRALLOC_USAGE_HW_TEXTURE.

(** * Properties *)

(** ** Machine arithmetic *)

Lemma to_u32_to_int (z : Z) : to_u32 (to_int z) = to_u32 z.
Proof.
  unfold to_u32, to_int.
  rewrite Zminus_mod_idemp_l.
  f_equal. lia.
Qed.

(** Side conditions on the range of an [int]. *)
Ltac int_range := unfold is_int, INT_MIN, INT_MAX in *; lia.

Lemma to_int_small (z : Z) : is_int z -> to_int z = z.
Proof.
  unfold is_int, INT_MIN, INT_MAX, to_int. intros Hz.
  rewrite Z.mod_small by lia. lia.
Qed.

Lemma to_u32_small (z : Z) : 0 <= z < 2 ^ 32 -> to_u32 z = z.
Proof. intros Hz. unfold to_u32. now apply Z.mod_small. Qed.

Lemma int_div_2_nonneg (z : Z) : 0 <= z <= INT_MAX -> int_div z 2 = z / 2.
Proof.
  intros Hz. unfold int_div.
  rewrite Z.quot_div_nonneg by lia.
  apply to_int_small. unfold is_int, INT_MIN, INT_MAX in *.
  pose proof (Z.div_pos z 2). pose proof (Z.div_le_upper_bound z 2 INT_MAX).
  unfold INT_MAX in *. lia.
Qed.

(** ** Usage translation *)

(** The cursor binding is never requested: its line in [get_pipe_bind] is
    commented out. *)
Lemma get_pipe_bind_no_cursor (u : Z) :
  test (to_int (get_pipe_bind u)) GBM_BO_USE_CURSOR = false.
Proof.
  unfold get_pipe_bind.
  destruct (test u (Z.lor GRALLOC_USAGE_SW_READ_OFTEN GRALLOC_USAGE_SW_WRITE_OFTEN));
    destruct (test u GRALLOC_USAGE_CURSOR);
    destruct (test u (Z.lor GRALLOC_USAGE_HW_RENDER GRALLOC_USAGE_HW_TEXTURE));
    destruct (test u GRALLOC_USAGE_HW_FB); reflexivity.
Qed.

Section GeometryProperties.

Context {P : Platform} {B : GbmBackend}.

Lemma gbm_alloc_geometry_no_clamp (handle : gralloc_gbm_handle_t) :
  gbm_alloc_geometry handle =
  if format handle =? HAL_PIXEL_FORMAT_YV12
  then (int_div (width handle) 2,
        int_add (height handle) (int_div (height handle) 2))
  else (width handle, height handle).
Proof.
  unfold gbm_alloc_geometry.
  now rewrite get_pipe_bind_no_cursor.
Qed.

(** Each backend call carries the extents its geometry function computes. *)
Lemma gbm_alloc_calls_create (gbm : Z) (handle : gralloc_gbm_handle_t)
    (tr : list gbm_call) :
  exists fmt flags,
    In (GbmBoCreate gbm (to_u32 (fst (gbm_alloc_geometry handle)))
                    (to_u32 (snd (gbm_alloc_geometry handle))) fmt flags)
       (snd (gbm_alloc gbm handle tr)).
Proof.
  unfold gbm_alloc.
  destruct (gbm_alloc_geometry handle) as [w h]. cbn [fst snd].
  do 2 eexists.
  destruct (_ =? 0); [now left|].
  destruct GBM_BO_IMPORT_FD_MODIFIER; cbn; auto 6.
Qed.

Lemma gbm_import_calls_import (gbm : Z) (handle : gralloc_gbm_handle_t)
    (tr : list gbm_call) :
  0 <= prime_fd handle ->
  exists d,
    snd (gbm_import gbm handle tr)
      = GbmBoImport gbm GBM_BO_IMPORT_FD_MODIFIER d :: tr
    /\ (imp_width d, imp_height d) = gbm_import_geometry handle.
Proof.
  intros Hfd. unfold gbm_import.
  destruct (Z.ltb_spec (prime_fd handle) 0) as [Hneg|_]; [lia|].
  destruct (gbm_import_geometry handle) as [w h].
  eexists. split.
  - destruct (_ =? 0); reflexivity.
  - reflexivity.
Qed.

Lemma gbm_map_calls_map (handle : gralloc_gbm_handle_t) (b : gralloc_gbm_bo_t)
    (x y w h enable_write : Z) (tr : list gbm_call) :
  map_data b = 0 ->
  exists flags,
    snd (gbm_map handle b x y w h enable_write tr)
      = GbmBoMap (bo b) 0 0
          (to_u32 (int_add x (fst (gbm_map_geometry handle w h))))
          (to_u32 (int_add y (snd (gbm_map_geometry handle w h)))) flags :: tr.
Proof.
  intros Hm. unfold gbm_map. rewrite Hm. cbn [Z.eqb negb].
  destruct (gbm_map_geometry handle w h) as [w' h']. cbn [fst snd].
  eexists.
  destruct (reply_addr _ =? 0); reflexivity.
Qed.

(** What the three geometry computations give for YV12, as the backend
    receives it. *)
Lemma planar_geometry (handle : gralloc_gbm_handle_t) (w h : Z) :
  format handle = HAL_PIXEL_FORMAT_YV12 ->
  width handle = w -> height handle = h ->
  0 <= w <= INT_MAX -> 0 <= h <= INT_MAX ->
  (to_u32 (fst (gbm_alloc_geometry handle)),
   to_u32 (snd (gbm_alloc_geometry handle))) = (w / 2, h + h / 2)
  /\ gbm_import_geometry handle = (w / 2, h + h / 2)
  /\ (to_u32 (int_add 0 (fst (gbm_map_geometry handle w h))),
      to_u32 (int_add 0 (snd (gbm_map_geometry handle w h))))
     = (w / 2, h + h / 2).
Proof.
  intros Hf Hw Hh Wr Hr.
  assert (Hw2 : 0 <= w / 2 < 2 ^ 31)
    by (unfold INT_MAX in Wr; split;
        [apply Z.div_pos | apply Z.div_lt_upper_bound]; lia).
  assert (Hh2 : 0 <= h / 2 < 2 ^ 30)
    by (unfold INT_MAX in Hr; split;
        [apply Z.div_pos | apply Z.div_lt_upper_bound]; lia).
  assert (Hsum : to_u32 (h + h / 2) = h + h / 2)
    by (apply to_u32_small; unfold INT_MAX in Hr; lia).
  repeat split.
  - rewrite gbm_alloc_geometry_no_clamp, Hf, Z.eqb_refl, Hw, Hh. cbn [fst snd].
    rewrite !int_div_2_nonneg by assumption.
    unfold int_add. rewrite to_u32_to_int, Hsum.
    now rewrite to_u32_small by lia.
  - unfold gbm_import_geometry. rewrite Hf, Z.eqb_refl, Hw, Hh.
    rewrite int_div_2_nonneg by assumption.
    unfold u32_div, u32_add.
    rewrite !(to_u32_small w), !(to_u32_small h), (to_u32_small (h / 2))
      by (unfold INT_MAX in *; lia).
    now rewrite Hsum.
  - unfold gbm_map_geometry. rewrite Hf, Z.eqb_refl. cbn [fst snd].
    rewrite !int_div_2_nonneg by assumption.
    unfold int_add. rewrite !to_u32_to_int. cbn [Z.add].
    rewrite to_u32_to_int, Hsum.
    now rewrite to_u32_small by lia.
Qed.

(** C1.  For the planar format YV12 the extents are derived afresh from the
    logical width [w], height [h] and format in [gbm_alloc], in [gbm_import]
    and in [gbm_map], and each of the three hands the pair
    [(w / 2, h + h / 2)] to the backend: as the size to create, as the size
    of the import, and as the extent to map from the origin.  [w] and [h]
    range over the sizes an [int] can hold. *)
Theorem planar_geometry_agrees (gbm : Z) (handle : gralloc_gbm_handle_t)
    (b : gralloc_gbm_bo_t) (w h enable_write : Z) (tr : list gbm_call) :
  format handle = HAL_PIXEL_FORMAT_YV12 ->
  width handle = w -> height handle = h ->
  0 <= w <= INT_MAX -> 0 <= h <= INT_MAX ->
  (exists fmt flags,
     In (GbmBoCreate gbm (w / 2) (h + h / 2) fmt flags)
        (snd (gbm_alloc gbm handle tr)))
  /\ (0 <= prime_fd handle ->
      exists d,
        snd (gbm_import gbm handle tr)
          = GbmBoImport gbm GBM_BO_IMPORT_FD_MODIFIER d :: tr
        /\ (imp_width d, imp_height d) = (w / 2, h + h / 2))
  /\ (map_data b = 0 ->
      exists flags,
        snd (gbm_map handle b 0 0 w h enable_write tr)
          = GbmBoMap (bo b) 0 0 (w / 2) (h + h / 2) flags :: tr).
Proof.
  intros Hf Hw Hh Wr Hr.
  destruct (planar_geometry handle w h Hf Hw Hh Wr Hr) as (Ha & Hi & Hm).
  injection Ha as Ha1 Ha2. injection Hm as Hm1 Hm2.
  split; [|split].
  - destruct (gbm_alloc_calls_create gbm handle tr) as (fmt & flags & Hin).
    rewrite Ha1, Ha2 in Hin. eauto.
  - intros Hfd.
    destruct (gbm_import_calls_import gbm handle tr Hfd) as (d & Htr & Hd).
    exists d. split; [exact Htr | now rewrite Hd].
  - intros Hmap.
    destruct (gbm_map_calls_map handle b 0 0 w h enable_write tr Hmap)
      as (flags & Htr).
    rewrite Hm1, Hm2 in Htr. eauto.
Qed.

End GeometryProperties.

(** ** Usage masks *)

Lemma test_lor (a b mask : Z) :
  test (Z.lor a b) mask = test a mask || test b mask.
Proof.
  unfold test. rewrite Z.land_lor_distr_l.
  destruct (Z.eqb_spec (Z.land a mask) 0) as [Ha|Ha];
    destruct (Z.eqb_spec (Z.land b mask) 0) as [Hb|Hb];
    destruct (Z.eqb_spec (Z.lor (Z.land a mask) (Z.land b mask)) 0) as [Hab|Hab];
    try reflexivity; exfalso.
  - apply Hab. now rewrite Ha, Hb.
  - apply Z.lor_eq_0_iff in Hab. tauto.
  - apply Z.lor_eq_0_iff in Hab. tauto.
  - apply Z.lor_eq_0_iff in Hab. tauto.
Qed.

Lemma test_subset (req granted mask : Z) :
  Z.land granted req = req -> test granted mask = false -> test req mask = false.
Proof.
  unfold test. intros Hsub Hg.
  apply negb_false_iff, Z.eqb_eq in Hg.
  apply negb_false_iff, Z.eqb_eq.
  rewrite <- Hsub, (Z.land_comm granted req), <- Z.land_assoc, Hg.
  apply Z.land_0_r.
Qed.

Lemma land_lor_absorb (req granted : Z) :
  Z.land granted req = req -> Z.lor req granted = granted.
Proof.
  intros Hsub. rewrite <- Hsub.
  apply Z.bits_inj'. intros n _.
  rewrite Z.lor_spec, Z.land_spec.
  now destruct (Z.testbit granted n), (Z.testbit req n).
Qed.

Lemma lock_permitted_spec (created req : Z) :
  lock_permitted created req = true
  <-> (Z.land created req = req \/ waived created = true).
Proof.
  unfold lock_permitted, waived.
  destruct (Z.eqb_spec (Z.land created req) req) as [He|He]; cbn [orb].
  - tauto.
  - destruct (test created GRALLOC_USAGE_SW_READ_OFTEN),
             (test created GRALLOC_USAGE_HW_FB),
             (test created GRALLOC_USAGE_HW_TEXTURE); cbn;
      split; intros H; try reflexivity; try discriminate; auto;
      destruct H; [contradiction | discriminate].
Qed.

Lemma lock_permitted_lor (created a b : Z) :
  lock_permitted created a = true -> lock_permitted created b = true ->
  lock_permitted created (Z.lor a b) = true.
Proof.
  rewrite !lock_permitted_spec.
  intros [Ha|Ha] [Hb|Hb]; auto.
  left. now rewrite Z.land_lor_distr_r, Ha, Hb.
Qed.

Lemma lock_permitted_subset (created granted req : Z) :
  lock_permitted created granted = true -> Z.land granted req = req ->
  lock_permitted created req = true.
Proof.
  rewrite !lock_permitted_spec.
  intros [Hg|Hg] Hsub; auto.
  left. now rewrite <- Hsub, Z.land_assoc, Hg.
Qed.

Lemma lock_permitted_0 (created : Z) : lock_permitted created 0 = true.
Proof. apply lock_permitted_spec. left. apply Z.land_0_r. Qed.

Section LockProperties.

Context {P : Platform} {B : GbmBackend}.

(** ** Resolving a handle *)

Lemma gralloc_gbm_handle_some (h gbm_handle : gralloc_gbm_handle_t) :
  gralloc_gbm_handle (Some h) = Some gbm_handle -> h = gbm_handle.
Proof.
  unfold gralloc_gbm_handle. destruct (_ && _); congruence.
Qed.

Lemma gralloc_gbm_handle_mem (m : machine) (gbm_handle : gralloc_gbm_handle_t) :
  gralloc_gbm_handle (mem m) = Some gbm_handle -> mem m = Some gbm_handle.
Proof.
  destruct (mem m) as [h|] eqn:E; [|discriminate].
  intros H. now rewrite (gralloc_gbm_handle_some _ _ H).
Qed.

Lemma gralloc_gbm_handle_set_data (h gbm_handle : gralloc_gbm_handle_t)
    (d : option gralloc_gbm_bo_t) :
  gralloc_gbm_handle (Some h) = Some gbm_handle ->
  gralloc_gbm_handle (Some (set_data h d)) = Some (set_data h d).
Proof.
  unfold gralloc_gbm_handle. cbn [set_data base magic].
  destruct (_ && _); congruence.
Qed.

Lemma gralloc_gbm_handle_set_data_owner (h gbm_handle : gralloc_gbm_handle_t)
    (o : Z) :
  gralloc_gbm_handle (Some h) = Some gbm_handle ->
  gralloc_gbm_handle (Some (set_data_owner h o)) = Some (set_data_owner h o).
Proof.
  unfold gralloc_gbm_handle. cbn [set_data_owner base magic].
  destruct (_ && _); congruence.
Qed.

Lemma resolves_fields (m : machine) (gbm_handle : gralloc_gbm_handle_t)
    (b : gralloc_gbm_bo_t) :
  resolves m gbm_handle b ->
  mem m = Some gbm_handle /\ data_owner gbm_handle = getpid
  /\ data gbm_handle = Some b.
Proof.
  intros [Hh Hb]. unfold gralloc_gbm_bo_from_handle in Hb. rewrite Hh in Hb.
  split; [now apply gralloc_gbm_handle_mem|].
  destruct (Z.eqb_spec (data_owner gbm_handle) getpid); [auto | discriminate].
Qed.

Lemma resolves_fun (m : machine) (g1 g2 : gralloc_gbm_handle_t)
    (b1 b2 : gralloc_gbm_bo_t) :
  resolves m g1 b1 -> resolves m g2 b2 -> g1 = g2 /\ b1 = b2.
Proof. intros [H1 H2] [H3 H4]. split; congruence. Qed.

Lemma resolves_or_not (m : machine) :
  (exists gbm_handle b, resolves m gbm_handle b)
  \/ gralloc_gbm_bo_from_handle (mem m) = None.
Proof.
  unfold resolves, gralloc_gbm_bo_from_handle.
  destruct (gralloc_gbm_handle (mem m)) as [g|]; [|now right].
  destruct (data_owner g =? getpid); [|now right].
  destruct (data g) as [b|]; [left; eauto | now right].
Qed.

Lemma resolves_store_bo (m : machine) (gbm_handle : gralloc_gbm_handle_t)
    (b b' : gralloc_gbm_bo_t) (tr : list gbm_call) :
  resolves m gbm_handle b ->
  resolves (store_bo m gbm_handle b' tr) (set_data gbm_handle (Some b')) b'.
Proof.
  intros H. destruct (resolves_fields _ _ _ H) as (Hm & Ho & Hd).
  destruct H as [Hh _]. rewrite Hm in Hh.
  unfold resolves, gralloc_gbm_bo_from_handle, store_bo. cbn [mem].
  rewrite (gralloc_gbm_handle_set_data _ _ _ Hh). split; [reflexivity|].
  cbn [set_data data_owner data]. now rewrite Ho, Z.eqb_refl.
Qed.

Lemma store_bo_same (m : machine) (gbm_handle : gralloc_gbm_handle_t)
    (b : gralloc_gbm_bo_t) :
  resolves m gbm_handle b -> store_bo m gbm_handle b (trace m) = m.
Proof.
  intros H. destruct (resolves_fields _ _ _ H) as (Hm & _ & Hd).
  unfold store_bo. destruct m as [p hm tr]. cbn in *. subst hm.
  destruct gbm_handle; cbn in *. now subst.
Qed.

(** ** The cases of [gralloc_gbm_bo_lock] *)

Lemma lock_unresolved (req x y w h : Z) (m : machine) :
  gralloc_gbm_bo_from_handle (mem m) = None ->
  gralloc_gbm_bo_lock req x y w h m = (- EINVAL, None, m).
Proof.
  intros Hb. unfold gralloc_gbm_bo_lock. rewrite Hb.
  now destruct (gralloc_gbm_handle (mem m)).
Qed.

Lemma lock_not_permitted (req x y w h : Z) (m : machine)
    (gbm_handle : gralloc_gbm_handle_t) (b : gralloc_gbm_bo_t) :
  resolves m gbm_handle b ->
  lock_permitted (usage gbm_handle) req = false ->
  gralloc_gbm_bo_lock req x y w h m = (- EINVAL, None, m).
Proof.
  intros [Hh Hb] Hp. unfold gralloc_gbm_bo_lock. now rewrite Hh, Hb, Hp.
Qed.

Lemma lock_not_compatible (req x y w h : Z) (m : machine)
    (gbm_handle : gralloc_gbm_handle_t) (b : gralloc_gbm_bo_t) :
  resolves m gbm_handle b ->
  lock_compatible b req = false ->
  gralloc_gbm_bo_lock req x y w h m = (- EINVAL, None, m).
Proof.
  intros [Hh Hb] Hc. unfold gralloc_gbm_bo_lock. rewrite Hh, Hb, Hc.
  now destruct (lock_permitted _ _).
Qed.

(** No CPU intent in the combined usage: the lock is counted, nothing is
    mapped. *)
Lemma lock_without_cpu_intent (req x y w h : Z) (m : machine)
    (gbm_handle : gralloc_gbm_handle_t) (b : gralloc_gbm_bo_t) :
  resolves m gbm_handle b ->
  lock_permitted (usage gbm_handle) req = true ->
  lock_compatible b req = true ->
  cpu_intent (Z.lor req (locked_for b)) = false ->
  gralloc_gbm_bo_lock req x y w h m
  = (0, None,
     store_bo m gbm_handle
       (mk_bo (bo b) (map_data b) (int_add (lock_count b) 1)
              (Z.lor (locked_for b) (Z.lor req (locked_for b))))
       (trace m)).
Proof.
  intros [Hh Hb] Hp Hc Hu. unfold gralloc_gbm_bo_lock.
  unfold cpu_intent in Hu. now rewrite Hh, Hb, Hp, Hc, Hu.
Qed.

(** CPU intent on an object that is mapped already: [gbm_map] refuses. *)
Lemma lock_already_mapped (req x y w h : Z) (m : machine)
    (gbm_handle : gralloc_gbm_handle_t) (b : gralloc_gbm_bo_t) :
  resolves m gbm_handle b ->
  cpu_intent (Z.lor req (locked_for b)) = true ->
  map_data b <> 0 ->
  gralloc_gbm_bo_lock req x y w h m = (- EINVAL, None, m).
Proof.
  intros H Hu Hmap. pose proof (store_bo_same _ _ _ H) as Hsame.
  destruct H as [Hh Hb]. unfold gralloc_gbm_bo_lock.
  unfold cpu_intent in Hu. rewrite Hh, Hb, Hu.
  destruct (lock_permitted _ _); [|reflexivity].
  destruct (lock_compatible _ _); [|reflexivity].
  cbn [negb]. unfold gbm_map.
  destruct (Z.eqb_spec (map_data b) 0) as [E|_]; [contradiction|].
  cbn [negb]. cbn. now rewrite Hsame.
Qed.

(** CPU intent on an unmapped object: the backend is asked, and its answer
    decides. *)
Lemma lock_maps (req x y w h : Z) (m : machine)
    (gbm_handle : gralloc_gbm_handle_t) (b : gralloc_gbm_bo_t) :
  resolves m gbm_handle b ->
  lock_permitted (usage gbm_handle) req = true ->
  lock_compatible b req = true ->
  cpu_intent (Z.lor req (locked_for b)) = true ->
  map_data b = 0 ->
  exists ex ey flags,
    let r := gbm_bo_map (trace m) (bo b) 0 0 ex ey flags in
    let tr := GbmBoMap (bo b) 0 0 ex ey flags :: trace m in
    gralloc_gbm_bo_lock req x y w h m
    = if reply_addr r =? 0
      then (- ENOMEM, Some 0,
            store_bo m gbm_handle (set_map_data b (reply_map_data r)) tr)
      else (0, Some (reply_addr r),
            store_bo m gbm_handle
              (mk_bo (bo b) (reply_map_data r) (int_add (lock_count b) 1)
                     (Z.lor (locked_for b) (Z.lor req (locked_for b))))
              tr).
Proof.
  intros [Hh Hb] Hp Hc Hu Hmap. unfold gralloc_gbm_bo_lock.
  unfold cpu_intent in Hu. rewrite Hh, Hb, Hp, Hc, Hu. cbn [negb].
  unfold gbm_map. rewrite Hmap. cbn [Z.eqb negb].
  destruct (gbm_map_geometry gbm_handle w h) as [w' h'].
  match goal with
  | |- context [gbm_bo_map _ _ 0 0 ?ex ?ey ?flags] => exists ex, ey, flags
  end.
  cbn zeta. destruct (reply_addr _ =? 0); reflexivity.
Qed.

End LockProperties.

Section UnlockProperties.

Context {P : Platform} {B : GbmBackend}.

(** ** The cases of [gralloc_gbm_bo_unlock] *)

Lemma unlock_unresolved (m : machine) :
  gralloc_gbm_bo_from_handle (mem m) = None ->
  gralloc_gbm_bo_unlock m = (- EINVAL, m).
Proof.
  intros Hb. unfold gralloc_gbm_bo_unlock. rewrite Hb.
  now destruct (gralloc_gbm_handle (mem m)).
Qed.

Lemma unlock_idle (m : machine) (gbm_handle : gralloc_gbm_handle_t)
    (b : gralloc_gbm_bo_t) :
  resolves m gbm_handle b -> lock_count b = 0 ->
  gralloc_gbm_bo_unlock m = (0, m).
Proof.
  intros [Hh Hb] Hc. unfold gralloc_gbm_bo_unlock. now rewrite Hh, Hb, Hc.
Qed.

Lemma unlock_locked (m : machine) (gbm_handle : gralloc_gbm_handle_t)
    (b : gralloc_gbm_bo_t) :
  resolves m gbm_handle b -> lock_count b <> 0 ->
  let c := int_sub (lock_count b) 1 in
  let granted := if c =? 0 then 0 else locked_for b in
  gralloc_gbm_bo_unlock m
  = (0, if cpu_intent (locked_for b)
        then store_bo m gbm_handle (mk_bo (bo b) 0 c granted)
               (GbmBoUnmap (bo b) (map_data b) :: trace m)
        else store_bo m gbm_handle (mk_bo (bo b) (map_data b) c granted)
               (trace m)).
Proof.
  intros [Hh Hb] Hc. unfold gralloc_gbm_bo_unlock. rewrite Hh, Hb.
  destruct (Z.eqb_spec (lock_count b) 0) as [E|_]; [contradiction|].
  unfold cpu_intent, test.
  destruct (Z.land (locked_for b) SW_ACCESS_MASK =? 0); cbn;
    destruct (int_sub (lock_count b) 1 =? 0); reflexivity.
Qed.

(** ** What one call does to the object *)

Lemma lor_lor_same (a b : Z) : Z.lor b (Z.lor a b) = Z.lor a b.
Proof. now rewrite (Z.lor_comm a b), Z.lor_assoc, Z.lor_diag. Qed.

Lemma resolves_unchanged (m : machine) (gbm_handle : gralloc_gbm_handle_t)
    (b : gralloc_gbm_bo_t) :
  resolves m gbm_handle b -> resolves m (set_data gbm_handle (Some b)) b.
Proof.
  intros H. pose proof (resolves_store_bo m gbm_handle b b (trace m) H) as H'.
  now rewrite (store_bo_same _ _ _ H) in H'.
Qed.

(** A failed lock leaves the count and the granted usage alone and a lock
    that succeeds counts once and merges the request; in neither case does
    the handle change but in the object it points to. *)
Lemma lock_effect (req x y w h : Z) (m : machine)
    (gbm_handle : gralloc_gbm_handle_t) (b : gralloc_gbm_bo_t) :
  resolves m gbm_handle b ->
  exists b',
    resolves (snd (gralloc_gbm_bo_lock req x y w h m))
             (set_data gbm_handle (Some b')) b'
    /\ ((fst (fst (gralloc_gbm_bo_lock req x y w h m)) <> 0
         /\ lock_count b' = lock_count b /\ locked_for b' = locked_for b)
        \/ (fst (fst (gralloc_gbm_bo_lock req x y w h m)) = 0
            /\ lock_count b' = int_add (lock_count b) 1
            /\ locked_for b' = Z.lor req (locked_for b))).
Proof.
  intros H.
  destruct (lock_permitted (usage gbm_handle) req) eqn:Hp.
  2:{ rewrite (lock_not_permitted _ _ _ _ _ _ _ _ H Hp).
      exists b. split; [now apply resolves_unchanged|]. left. now cbn. }
  destruct (lock_compatible b req) eqn:Hc.
  2:{ rewrite (lock_not_compatible _ _ _ _ _ _ _ _ H Hc).
      exists b. split; [now apply resolves_unchanged|]. left. now cbn. }
  destruct (cpu_intent (Z.lor req (locked_for b))) eqn:Hu.
  2:{ rewrite (lock_without_cpu_intent _ _ _ _ _ _ _ _ H Hp Hc Hu).
      eexists. split; [eapply resolves_store_bo; eassumption|]. right.
      cbn. now rewrite lor_lor_same. }
  destruct (Z.eq_dec (map_data b) 0) as [Hm|Hm].
  2:{ rewrite (lock_already_mapped _ _ _ _ _ _ _ _ H Hu Hm).
      exists b. split; [now apply resolves_unchanged|]. left. now cbn. }
  destruct (lock_maps req x y w h _ _ _ H Hp Hc Hu Hm) as (ex & ey & fl & E).
  cbn zeta in E. rewrite E.
  destruct (reply_addr _ =? 0).
  - eexists. split; [eapply resolves_store_bo; eassumption|]. left. now cbn.
  - eexists. split; [eapply resolves_store_bo; eassumption|]. right.
    cbn. now rewrite lor_lor_same.
Qed.

Lemma unlock_effect (m : machine) (gbm_handle : gralloc_gbm_handle_t)
    (b : gralloc_gbm_bo_t) :
  resolves m gbm_handle b ->
  fst (gralloc_gbm_bo_unlock m) = 0
  /\ exists b',
       resolves (snd (gralloc_gbm_bo_unlock m)) (set_data gbm_handle (Some b')) b'
       /\ lock_count b'
          = if lock_count b =? 0 then 0 else int_sub (lock_count b) 1.
Proof.
  intros H. destruct (Z.eqb_spec (lock_count b) 0) as [Hc|Hc].
  - rewrite (unlock_idle _ _ _ H Hc). split; [reflexivity|].
    exists b. split; [now apply resolves_unchanged | assumption].
  - rewrite (unlock_locked _ _ _ H Hc). split; [reflexivity|].
    destruct (cpu_intent (locked_for b)); cbn [snd];
      (eexists; split; [eapply resolves_store_bo; eassumption | reflexivity]).
Qed.

End UnlockProperties.

Section StateMachine.

Context {P : Platform} {B : GbmBackend}.

(** ** The invariant of the lock state machine *)

Lemma machine_inv_store (m : machine) (gbm_handle : gralloc_gbm_handle_t)
    (b b' : gralloc_gbm_bo_t) (tr : list gbm_call) :
  resolves m gbm_handle b -> lock_inv gbm_handle b' ->
  machine_inv (store_bo m gbm_handle b' tr).
Proof.
  intros H Hinv g2 b2 H2.
  destruct (resolves_fun _ _ _ _ _ (resolves_store_bo m _ b b' tr H) H2)
    as [<- <-].
  exact Hinv.
Qed.

Lemma fresh_machine_inv (m : machine) : fresh_machine m -> machine_inv m.
Proof.
  intros Hf g b H. destruct (Hf _ _ H) as (Hm & _ & Hl).
  unfold lock_inv. rewrite Hl. split; [left; now split | apply lock_permitted_0].
Qed.

Lemma lock_inv_mapping (gbm_handle : gralloc_gbm_handle_t)
    (b : gralloc_gbm_bo_t) :
  lock_inv gbm_handle b -> mapping_invariant b.
Proof.
  intros [[[Hm Hu]|(Hm & Hc & Hu)] _]; unfold mapping_invariant.
  - split; [contradiction|]. intros [_ Hu']. congruence.
  - split; [intros _; split; [lia | exact Hu] | intros _; exact Hm].
Qed.

(** A request compatible with an object that holds no CPU intent, but
    bringing one, finds the object unlocked. *)
Lemma cpu_request_finds_unlocked (b : gralloc_gbm_bo_t) (req : Z) :
  lock_compatible b req = true ->
  cpu_intent (locked_for b) = false ->
  cpu_intent (Z.lor req (locked_for b)) = true ->
  lock_count b = 0.
Proof.
  unfold lock_compatible, cpu_intent. intros Hc Hl Hu.
  destruct (Z.eqb_spec (lock_count b) 0) as [E|E]; [exact E|].
  destruct (Z.eqb_spec (Z.land (locked_for b) req) req) as [Hs|Hs];
    [|discriminate].
  rewrite test_lor, Hl, (test_subset _ _ _ Hs Hl) in Hu. discriminate.
Qed.

Lemma lock_preserves_inv (req x y w h : Z) (m : machine) :
  map_contract -> machine_inv m ->
  machine_inv (snd (gralloc_gbm_bo_lock req x y w h m)).
Proof.
  intros Hct Hinv.
  destruct (resolves_or_not m) as [(g & b & H)|Hn].
  2:{ now rewrite (lock_unresolved _ _ _ _ _ _ Hn). }
  destruct (Hinv _ _ H) as [Hshape Hperm].
  destruct (lock_permitted (usage g) req) eqn:Hp.
  2:{ now rewrite (lock_not_permitted _ _ _ _ _ _ _ _ H Hp). }
  destruct (lock_compatible b req) eqn:Hc.
  2:{ now rewrite (lock_not_compatible _ _ _ _ _ _ _ _ H Hc). }
  pose proof (lock_permitted_lor _ _ _ Hperm (lock_permitted_lor _ _ _ Hp Hperm))
    as Hperm'.
  destruct (cpu_intent (Z.lor req (locked_for b))) eqn:Hu.
  - destruct (Z.eq_dec (map_data b) 0) as [Hm|Hm].
    2:{ now rewrite (lock_already_mapped _ _ _ _ _ _ _ _ H Hu Hm). }
    assert (Hl : cpu_intent (locked_for b) = false)
      by (destruct Hshape as [[_ Hl]|[Hne _]]; [exact Hl | contradiction]).
    destruct (lock_maps req x y w h _ _ _ H Hp Hc Hu Hm) as (ex & ey & fl & E).
    cbn zeta in E. rewrite E.
    pose proof (Hct (trace m) (bo b) 0 0 ex ey fl) as Hr.
    destruct (Z.eqb_spec (reply_addr (gbm_bo_map (trace m) (bo b) 0 0 ex ey fl)) 0)
      as [Ha|Ha]; cbn [snd]; apply machine_inv_store with (b := b); auto.
    + split; [left; cbn; split; [now apply Hr | exact Hl] | exact Hperm].
    + split; [right; cbn | exact Hperm'].
      rewrite (cpu_request_finds_unlocked _ _ Hc Hl Hu), lor_lor_same.
      split; [tauto | split; [reflexivity | exact Hu]].
  - rewrite (lock_without_cpu_intent _ _ _ _ _ _ _ _ H Hp Hc Hu). cbn [snd].
    apply machine_inv_store with (b := b); auto.
    split; [left; cbn | exact Hperm'].
    rewrite lor_lor_same. split; [|exact Hu].
    destruct Hshape as [[Hm _]|(_ & _ & Hl)]; [exact Hm|].
    unfold cpu_intent in *. rewrite test_lor, Hl, orb_true_r in Hu.
    discriminate.
Qed.

Lemma unlock_preserves_inv (m : machine) :
  machine_inv m -> machine_inv (snd (gralloc_gbm_bo_unlock m)).
Proof.
  intros Hinv.
  destruct (resolves_or_not m) as [(g & b & H)|Hn].
  2:{ now rewrite (unlock_unresolved _ Hn). }
  destruct (Hinv _ _ H) as [Hshape Hperm].
  destruct (Z.eq_dec (lock_count b) 0) as [Hc|Hc].
  { now rewrite (unlock_idle _ _ _ H Hc). }
  rewrite (unlock_locked _ _ _ H Hc). cbn [snd].
  assert (Hg : lock_permitted (usage g)
                 (if int_sub (lock_count b) 1 =? 0 then 0 else locked_for b) = true)
    by (destruct (_ =? 0); [apply lock_permitted_0 | exact Hperm]).
  destruct (cpu_intent (locked_for b)) eqn:Hu;
    apply machine_inv_store with (b := b); auto; (split; [left; cbn | exact Hg]).
  - destruct Hshape as [[_ Hl]|(_ & Hone & _)]; [congruence|].
    rewrite Hone. now cbn.
  - destruct Hshape as [[Hm _]|(_ & _ & Hl)]; [|congruence].
    split; [exact Hm|]. now destruct (_ =? 0).
Qed.

Lemma lock_call_snd (o : lock_op) (m : machine) :
  snd (lock_call o m)
  = match o with
    | Lock req x y w h => snd (gralloc_gbm_bo_lock req x y w h m)
    | Unlock => snd (gralloc_gbm_bo_unlock m)
    end.
Proof.
  destruct o as [req x y w h|]; [|reflexivity].
  unfold lock_call. now destruct (gralloc_gbm_bo_lock req x y w h m) as [[e a] m'].
Qed.

Lemma lock_call_fst (o : lock_op) (m : machine) :
  fst (lock_call o m)
  = match o with
    | Lock req x y w h => fst (fst (gralloc_gbm_bo_lock req x y w h m))
    | Unlock => fst (gralloc_gbm_bo_unlock m)
    end.
Proof.
  destruct o as [req x y w h|]; [|reflexivity].
  unfold lock_call. now destruct (gralloc_gbm_bo_lock req x y w h m) as [[e a] m'].
Qed.

Lemma run_preserves_inv (ops : list lock_op) (m : machine) :
  map_contract -> machine_inv m -> machine_inv (run ops m).
Proof.
  intros Hct. revert m.
  induction ops as [|o ops IH]; intros m Hinv; [exact Hinv|].
  cbn [run]. apply IH. rewrite lock_call_snd.
  destruct o; [now apply lock_preserves_inv | now apply unlock_preserves_inv].
Qed.

(** C4.  Starting from an object that was just allocated or imported, after
    every sequence of Lock and Unlock calls the object is mapped
    ([map_data] non-null) if and only if its lock count is positive and
    the accumulated usage holds a CPU read or write intent.  The backend is
    taken to honour the contract of [gbm_bo_map]. *)
Theorem mapping_invariant_after_calls (ops : list lock_op) (m : machine)
    (gbm_handle : gralloc_gbm_handle_t) (b : gralloc_gbm_bo_t) :
  map_contract -> fresh_machine m ->
  resolves (run ops m) gbm_handle b ->
  mapping_invariant b.
Proof.
  intros Hct Hf H.
  apply lock_inv_mapping with gbm_handle.
  exact (run_preserves_inv ops m Hct (fresh_machine_inv m Hf) _ _ H).
Qed.

End StateMachine.

Section FreshObjects.

Context {P : Platform} {B : GbmBackend}.

(** ** Objects start unlocked *)

Lemma gbm_alloc_fresh (gbm : Z) (handle : gralloc_gbm_handle_t)
    (tr : list gbm_call) (b : gralloc_gbm_bo_t) :
  fst (fst (gbm_alloc gbm handle tr)) = Some b -> fresh_bo b.
Proof.
  unfold gbm_alloc. destruct (gbm_alloc_geometry handle) as [w h].
  destruct (_ =? 0); [discriminate|].
  destruct GBM_BO_IMPORT_FD_MODIFIER; cbn; intros [= <-]; now repeat split.
Qed.

Lemma gbm_import_fresh (gbm : Z) (handle : gralloc_gbm_handle_t)
    (tr : list gbm_call) (b : gralloc_gbm_bo_t) :
  fst (gbm_import gbm handle tr) = Some b -> fresh_bo b.
Proof.
  unfold gbm_import. destruct (prime_fd handle <? 0); [discriminate|].
  destruct (gbm_import_geometry handle) as [w h].
  destruct (_ =? 0); [discriminate|].
  cbn. intros [= <-]. now repeat split.
Qed.

Lemma gralloc_gbm_bo_create_fresh (gbm w h fmt usg : Z) (m : machine)
    (handle : gralloc_gbm_handle_t) :
  fst (gralloc_gbm_bo_create gbm w h fmt usg m) = Some handle ->
  fresh_machine (snd (gralloc_gbm_bo_create gbm w h fmt usg m)).
Proof.
  unfold gralloc_gbm_bo_create.
  pose proof (gbm_alloc_fresh gbm (create_bo_handle w h fmt usg) (trace m)) as Hf.
  destruct (gbm_alloc gbm (create_bo_handle w h fmt usg) (trace m))
    as [[[b|] handle'] tr]; [|discriminate].
  cbn [fst] in Hf. specialize (Hf b eq_refl).
  destruct (gralloc_gbm_get_pid (set_trace m tr)) as [pid m'].
  cbn [fst snd]. intros _ g b' H.
  destruct (resolves_fields _ _ _ H) as (Hm & _ & Hd).
  cbn in Hm. injection Hm as <-. cbn in Hd. now injection Hd as <-.
Qed.

End FreshObjects.

Section LockClaims.

Context {P : Platform} {B : GbmBackend}.

Lemma lock_compatible_subset (b : gralloc_gbm_bo_t) (req : Z) :
  subset req (locked_for b) -> lock_compatible b req = true.
Proof.
  unfold subset, lock_compatible. intros ->.
  now rewrite Z.eqb_refl, andb_false_r.
Qed.

Lemma lock_incompatible (b : gralloc_gbm_bo_t) (req : Z) :
  lock_count b <> 0 -> ~ subset req (locked_for b) ->
  lock_compatible b req = false.
Proof.
  unfold subset, lock_compatible. intros Hc Hs.
  destruct (Z.eqb_spec (lock_count b) 0); [contradiction|].
  now destruct (Z.eqb_spec (Z.land (locked_for b) req) req).
Qed.

(** C2, as the code has it.  On an object that is locked, reached from a
    fresh one by Lock and Unlock calls: a request with a bit outside the
    accumulated usage fails with [-EINVAL]; a request within it fails with
    [-EINVAL] as well when the accumulated usage holds a CPU intent, for
    the object is mapped and [gbm_map] refuses a second mapping; and a
    request within an accumulated usage without CPU intent succeeds and
    raises the count by one, with no backend call. *)
Theorem nested_lock_outcome (ops : list lock_op) (m0 : machine)
    (gbm_handle : gralloc_gbm_handle_t) (b : gralloc_gbm_bo_t)
    (req x y w h : Z) :
  map_contract -> fresh_machine m0 ->
  resolves (run ops m0) gbm_handle b -> 0 < lock_count b ->
  (~ subset req (locked_for b) ->
   gralloc_gbm_bo_lock req x y w h (run ops m0) = (- EINVAL, None, run ops m0))
  /\ (subset req (locked_for b) -> cpu_intent (locked_for b) = true ->
      gralloc_gbm_bo_lock req x y w h (run ops m0)
      = (- EINVAL, None, run ops m0))
  /\ (subset req (locked_for b) -> cpu_intent (locked_for b) = false ->
      lock_count b < INT_MAX ->
      gralloc_gbm_bo_lock req x y w h (run ops m0)
      = (0, None,
         store_bo (run ops m0) gbm_handle
           (mk_bo (bo b) (map_data b) (lock_count b + 1) (locked_for b))
           (trace (run ops m0)))).
Proof.
  intros Hct Hf H Hpos.
  destruct (run_preserves_inv ops m0 Hct (fresh_machine_inv m0 Hf) _ _ H)
    as [Hshape Hperm].
  split; [|split].
  - intros Hs.
    destruct (lock_permitted (usage gbm_handle) req) eqn:Hp.
    + apply (lock_not_compatible _ _ _ _ _ _ _ _ H).
      apply lock_incompatible; [lia | exact Hs].
    + exact (lock_not_permitted _ _ _ _ _ _ _ _ H Hp).
  - intros Hs Hu.
    apply (lock_already_mapped _ _ _ _ _ _ _ _ H).
    + unfold cpu_intent in *. now rewrite test_lor, Hu, orb_true_r.
    + destruct Hshape as [[_ Hl]|[Hm _]]; [congruence | exact Hm].
  - intros Hs Hu Hmax.
    rewrite (lock_without_cpu_intent _ _ _ _ _ _ _ _ H).
    + rewrite lor_lor_same, (land_lor_absorb _ _ Hs).
      unfold int_add. rewrite to_int_small; [reflexivity | int_range].
    + exact (lock_permitted_subset _ _ _ Hperm Hs).
    + now apply lock_compatible_subset.
    + now rewrite (land_lor_absorb _ _ Hs).
Qed.

(** C7, as the code has it.  When the requested usage combined with the
    accumulated one holds no CPU intent, Lock makes no backend call at all;
    and when the request passes the permission and the compatibility test
    it succeeds, stores no address and raises the count by one. *)
Theorem hw_lock_outcome (m : machine) (gbm_handle : gralloc_gbm_handle_t)
    (b : gralloc_gbm_bo_t) (req x y w h : Z) :
  resolves m gbm_handle b ->
  cpu_intent (Z.lor req (locked_for b)) = false ->
  trace (snd (gralloc_gbm_bo_lock req x y w h m)) = trace m
  /\ (lock_permitted (usage gbm_handle) req = true ->
      lock_compatible b req = true ->
      0 <= lock_count b < INT_MAX ->
      gralloc_gbm_bo_lock req x y w h m
      = (0, None,
         store_bo m gbm_handle
           (mk_bo (bo b) (map_data b) (lock_count b + 1)
                  (Z.lor req (locked_for b)))
           (trace m))).
Proof.
  intros H Hu. split.
  - destruct (lock_permitted (usage gbm_handle) req) eqn:Hp.
    2:{ now rewrite (lock_not_permitted _ _ _ _ _ _ _ _ H Hp). }
    destruct (lock_compatible b req) eqn:Hc.
    2:{ now rewrite (lock_not_compatible _ _ _ _ _ _ _ _ H Hc). }
    now rewrite (lock_without_cpu_intent _ _ _ _ _ _ _ _ H Hp Hc Hu).
  - intros Hp Hc Hr.
    rewrite (lock_without_cpu_intent _ _ _ _ _ _ _ _ H Hp Hc Hu), lor_lor_same.
    unfold int_add. rewrite to_int_small; [reflexivity | int_range].
Qed.

(** C9.  When Lock returns an error the lock count and the accumulated
    usage of the object are what they were before the call; and on a handle
    that does not resolve nothing changes at all. *)
Theorem lock_error_keeps_count (m : machine) (req x y w h : Z) :
  fst (fst (gralloc_gbm_bo_lock req x y w h m)) <> 0 ->
  (forall gbm_handle b,
     resolves m gbm_handle b ->
     exists b',
       resolves (snd (gralloc_gbm_bo_lock req x y w h m))
                (set_data gbm_handle (Some b')) b'
       /\ lock_count b' = lock_count b /\ locked_for b' = locked_for b)
  /\ (gralloc_gbm_bo_from_handle (mem m) = None ->
      snd (gralloc_gbm_bo_lock req x y w h m) = m).
Proof.
  intros Herr. split.
  - intros g b H.
    destruct (lock_effect req x y w h m g b H) as (b' & Hr & [Hfail|Hok]).
    + exists b'. tauto.
    + destruct Hok as [Hz _]. contradiction.
  - intros Hn. now rewrite (lock_unresolved _ _ _ _ _ _ Hn).
Qed.

End LockClaims.

Section LockCount.

Context {P : Platform} {B : GbmBackend}.

(** ** The lock count *)

Lemma resolves_not_none (m : machine) (gbm_handle : gralloc_gbm_handle_t)
    (b : gralloc_gbm_bo_t) :
  resolves m gbm_handle b -> gralloc_gbm_bo_from_handle (mem m) <> None.
Proof. intros [_ Hb]. congruence. Qed.

Lemma lock_call_count (o : lock_op) (n : Z) (m : machine) :
  n < INT_MAX -> count_within n m ->
  count_within (n + 1) (snd (lock_call o m)).
Proof.
  intros Hn Hm. rewrite lock_call_snd.
  destruct (resolves_or_not m) as [(g & b & H)|Hnone].
  - pose proof (Hm _ _ H) as Hb.
    destruct o as [req x y w h|].
    + destruct (lock_effect req x y w h m g b H) as (b' & Hr & Hcases).
      intros g2 b2 H2. destruct (resolves_fun _ _ _ _ _ Hr H2) as [_ <-].
      destruct Hcases as [(_ & -> & _)|(_ & -> & _)]; [lia|].
      unfold int_add. rewrite to_int_small; [lia | int_range].
    + destruct (unlock_effect m g b H) as (_ & b' & Hr & Hc).
      intros g2 b2 H2. destruct (resolves_fun _ _ _ _ _ Hr H2) as [_ <-].
      rewrite Hc. destruct (Z.eqb_spec (lock_count b) 0); [lia|].
      unfold int_sub. rewrite to_int_small; [lia | int_range].
  - destruct o as [req x y w h|].
    + rewrite (lock_unresolved _ _ _ _ _ _ Hnone).
      intros g b H. destruct (Hm _ _ H). lia.
    + rewrite (unlock_unresolved _ Hnone).
      intros g b H. destruct (Hm _ _ H). lia.
Qed.

Lemma run_count (ops : list lock_op) (n : Z) (m : machine) :
  n + Z.of_nat (length ops) <= INT_MAX -> count_within n m ->
  count_within (n + Z.of_nat (length ops)) (run ops m).
Proof.
  revert n m. induction ops as [|o ops IH]; intros n m Hn Hm.
  - cbn [length run]. intros g b H. destruct (Hm _ _ H). lia.
  - cbn [run]. cbn [length] in *. rewrite Nat2Z.inj_succ in *.
    replace (n + Z.succ (Z.of_nat (length ops)))
      with ((n + 1) + Z.of_nat (length ops)) by lia.
    apply IH; [lia|]. apply lock_call_count; [lia | exact Hm].
Qed.

(** C5.  On an object whose lock count is zero Unlock returns success and
    changes nothing: no unmap, no decrement.  Unlock never takes a count
    that is not negative below zero, and from a fresh object the count is
    never negative after any sequence of Lock and Unlock calls (of a length
    an [int] can count). *)
Theorem unlock_at_zero (m : machine) (gbm_handle : gralloc_gbm_handle_t)
    (b : gralloc_gbm_bo_t) :
  resolves m gbm_handle b ->
  (lock_count b = 0 -> gralloc_gbm_bo_unlock m = (0, m))
  /\ (0 <= lock_count b <= INT_MAX ->
      forall g' b', resolves (snd (gralloc_gbm_bo_unlock m)) g' b' ->
                    0 <= lock_count b')
  /\ (forall ops m0,
        fresh_machine m0 -> Z.of_nat (length ops) <= INT_MAX ->
        m = run ops m0 -> 0 <= lock_count b).
Proof.
  intros H. split; [|split].
  - exact (unlock_idle _ _ _ H).
  - intros Hc g' b' H'.
    destruct (unlock_effect m _ b H) as (_ & b2 & Hr & Hcount).
    destruct (resolves_fun _ _ _ _ _ Hr H') as [_ <-].
    rewrite Hcount. destruct (Z.eqb_spec (lock_count b) 0); [lia|].
    unfold int_sub. rewrite to_int_small; [lia | int_range].
  - intros ops m0 Hf Hlen ->.
    assert (H0 : count_within 0 m0)
      by (intros g0 b0 H0; destruct (Hf _ _ H0) as (_ & -> & _); lia).
    pose proof (run_count ops 0 m0 Hlen H0 _ _ H). lia.
Qed.

End LockCount.

Section Registry.

Context {P : Platform} {B : GbmBackend}.

(** ** The memoised process identity *)

Lemma gralloc_gbm_get_pid_spec (m : machine) :
  gralloc_gbm_get_pid m
  = (current_pid m, mk_machine (current_pid m) (mem m) (trace m)).
Proof.
  unfold current_pid, gralloc_gbm_get_pid.
  destruct (gralloc_gbm_pid m =? 0); [reflexivity|].
  now destruct m.
Qed.

Lemma current_pid_memoised (m : machine) (hm : option gralloc_gbm_handle_t)
    (tr : list gbm_call) :
  current_pid (mk_machine (current_pid m) hm tr) = current_pid m.
Proof.
  unfold current_pid, gralloc_gbm_get_pid. cbn [gralloc_gbm_pid].
  destruct (Z.eqb_spec (gralloc_gbm_pid m) 0) as [E|E]; cbn [fst].
  - now destruct (getpid =? 0).
  - destruct (Z.eqb_spec (gralloc_gbm_pid m) 0); [contradiction | reflexivity].
Qed.

(** ** The cases of [validate_handle] *)

Lemma validate_handle_invalid (gbm : Z) (m : machine) :
  gralloc_gbm_handle (mem m) = None -> validate_handle gbm m = (None, m).
Proof. intros Hh. unfold validate_handle. now rewrite Hh. Qed.

Lemma validate_handle_owned (gbm : Z) (m : machine)
    (handle : gralloc_gbm_handle_t) :
  gralloc_gbm_handle (mem m) = Some handle ->
  data_owner handle = current_pid m ->
  validate_handle gbm m
  = (data handle, mk_machine (current_pid m) (mem m) (trace m)).
Proof.
  intros Hh Ho. unfold validate_handle.
  now rewrite Hh, gralloc_gbm_get_pid_spec, Ho, Z.eqb_refl.
Qed.

Lemma validate_handle_check_only (m : machine) (handle : gralloc_gbm_handle_t) :
  gralloc_gbm_handle (mem m) = Some handle ->
  data_owner handle <> current_pid m ->
  validate_handle 0 m = (None, mk_machine (current_pid m) (mem m) (trace m)).
Proof.
  intros Hh Ho. unfold validate_handle.
  rewrite Hh, gralloc_gbm_get_pid_spec.
  now destruct (Z.eqb_spec (data_owner handle) (current_pid m)).
Qed.

Lemma validate_handle_imports (gbm : Z) (m : machine)
    (handle : gralloc_gbm_handle_t) :
  gralloc_gbm_handle (mem m) = Some handle ->
  data_owner handle <> current_pid m ->
  gbm <> 0 ->
  validate_handle gbm m
  = (fst (gbm_import gbm handle (trace m)),
     mk_machine (current_pid m)
       (Some (set_data (set_data_owner handle (current_pid m))
                       (fst (gbm_import gbm handle (trace m)))))
       (snd (gbm_import gbm handle (trace m)))).
Proof.
  intros Hh Ho Hg. unfold validate_handle.
  rewrite Hh, gralloc_gbm_get_pid_spec.
  destruct (Z.eqb_spec (data_owner handle) (current_pid m)); [contradiction|].
  destruct (Z.eqb_spec gbm 0); [contradiction|].
  cbn [trace]. destruct (gbm_import gbm handle (trace m)) as [b tr].
  unfold set_trace. cbn [gralloc_gbm_pid mem trace].
  rewrite gralloc_gbm_get_pid_spec, current_pid_memoised.
  reflexivity.
Qed.

(** An object that [validate_handle] has just imported was never locked. *)
Lemma validate_handle_import_fresh (gbm : Z) (m : machine)
    (handle : gralloc_gbm_handle_t) :
  gralloc_gbm_handle (mem m) = Some handle ->
  data_owner handle <> current_pid m -> gbm <> 0 ->
  fresh_machine (snd (validate_handle gbm m)).
Proof.
  intros Hh Ho Hg. rewrite (validate_handle_imports gbm m handle Hh Ho Hg).
  cbn [snd]. intros g b H.
  destruct (resolves_fields _ _ _ H) as (Hm & _ & Hd).
  cbn [mem] in Hm. injection Hm as <-. cbn [set_data data] in Hd.
  exact (gbm_import_fresh gbm handle (trace m) b Hd).
Qed.

Lemma gbm_import_bad_fd (gbm : Z) (handle : gralloc_gbm_handle_t)
    (tr : list gbm_call) :
  prime_fd handle < 0 -> gbm_import gbm handle tr = (None, tr).
Proof.
  intros Hfd. unfold gbm_import.
  now destruct (Z.ltb_spec (prime_fd handle) 0); [|lia].
Qed.

(** C8.  On a handle whose recorded owner is the current process identity,
    [validate_handle] returns the object of the data reference and calls
    no backend primitive, with or without a backend context; on a handle
    owned by anyone else it returns [NULL] when no context is given, again
    without a backend call.  [gralloc_gbm_bo_from_handle] does the same
    against [getpid()]. *)
Theorem resolve_owned_or_check_only (gbm : Z) (m : machine)
    (handle : gralloc_gbm_handle_t) :
  gralloc_gbm_handle (mem m) = Some handle ->
  (data_owner handle = current_pid m ->
   fst (validate_handle gbm m) = data handle
   /\ trace (snd (validate_handle gbm m)) = trace m
   /\ mem (snd (validate_handle gbm m)) = mem m)
  /\ (data_owner handle <> current_pid m ->
      fst (validate_handle 0 m) = None
      /\ trace (snd (validate_handle 0 m)) = trace m
      /\ mem (snd (validate_handle 0 m)) = mem m)
  /\ (data_owner handle = getpid ->
      gralloc_gbm_bo_from_handle (mem m) = data handle)
  /\ (data_owner handle <> getpid ->
      gralloc_gbm_bo_from_handle (mem m) = None).
Proof.
  intros Hh. split; [|split; [|split]].
  - intros Ho. now rewrite (validate_handle_owned gbm m handle Hh Ho).
  - intros Ho. now rewrite (validate_handle_check_only m handle Hh Ho).
  - intros Ho. unfold gralloc_gbm_bo_from_handle.
    now rewrite Hh, Ho, Z.eqb_refl.
  - intros Ho. unfold gralloc_gbm_bo_from_handle. rewrite Hh.
    now destruct (Z.eqb_spec (data_owner handle) getpid).
Qed.

(** C3, as the code has it.  Register with a backend context on a handle
    this process does not own and whose file descriptor is negative fails
    with [-EINVAL] and calls no backend primitive, and it leaves the handle
    owned by the current process with a null data reference. *)
Theorem register_bad_fd_outcome (gbm : Z) (m : machine)
    (handle : gralloc_gbm_handle_t) :
  gralloc_gbm_handle (mem m) = Some handle ->
  prime_fd handle < 0 -> gbm <> 0 ->
  data_owner handle <> current_pid m ->
  gralloc_gbm_handle_register gbm m
  = (- EINVAL,
     mk_machine (current_pid m)
       (Some (set_data (set_data_owner handle (current_pid m)) None))
       (trace m)).
Proof.
  intros Hh Hfd Hg Ho. unfold gralloc_gbm_handle_register.
  rewrite (validate_handle_imports gbm m handle Hh Ho Hg).
  now rewrite (gbm_import_bad_fd gbm handle (trace m) Hfd).
Qed.

(** A handle owned by this process with no object behind it. *)
Lemma registry_call_poisoned (o : registry_op) (pid : Z)
    (handle : gralloc_gbm_handle_t) (tr : list gbm_call) :
  let m := mk_machine pid (Some handle) tr in
  gralloc_gbm_handle (Some handle) = Some handle ->
  current_pid m = pid -> data_owner handle = pid -> data handle = None ->
  registry_call o m = (false, m).
Proof.
  intros m Hh Hp Ho Hd.
  assert (Hv : forall gbm, validate_handle gbm m = (None, m)).
  { intros gbm. rewrite (validate_handle_owned gbm m handle Hh) by congruence.
    now rewrite Hd, Hp. }
  destruct o as [gbm|gbm|]; cbn [registry_call].
  - now rewrite Hv.
  - unfold gralloc_gbm_handle_register. now rewrite Hv.
  - unfold gralloc_gbm_handle_unregister. now rewrite Hv.
Qed.

Lemma registry_run_poisoned (ops : list registry_op) (pid : Z)
    (handle : gralloc_gbm_handle_t) (tr : list gbm_call) :
  let m := mk_machine pid (Some handle) tr in
  gralloc_gbm_handle (Some handle) = Some handle ->
  current_pid m = pid -> data_owner handle = pid -> data handle = None ->
  registry_run ops m = (map (fun _ => false) ops, m).
Proof.
  intros m Hh Hp Ho Hd.
  induction ops as [|o ops IH]; [reflexivity|].
  cbn [registry_run map].
  pose proof (registry_call_poisoned o pid handle tr Hh Hp Ho Hd) as Hcall.
  cbn zeta in Hcall. fold m in Hcall. now rewrite Hcall, IH.
Qed.

(** C10.  When [validate_handle] with a backend context imports a handle of
    another owner and the import gives nothing, the handle is left owned
    by the current process with a null data reference; every later
    Resolve, Register and Unregister on it fails and leaves the machine as
    it is, so the import primitive is not called again. *)
Theorem failed_import_is_final (gbm : Z) (m : machine)
    (handle : gralloc_gbm_handle_t) (ops : list registry_op) :
  gralloc_gbm_handle (mem m) = Some handle ->
  data_owner handle <> current_pid m -> gbm <> 0 ->
  fst (gbm_import gbm handle (trace m)) = None ->
  fst (validate_handle gbm m) = None
  /\ mem (snd (validate_handle gbm m))
     = Some (set_data (set_data_owner handle (current_pid m)) None)
  /\ registry_run ops (snd (validate_handle gbm m))
     = (map (fun _ => false) ops, snd (validate_handle gbm m))
  /\ import_calls (trace (snd (registry_run ops (snd (validate_handle gbm m)))))
     = import_calls (trace (snd (validate_handle gbm m))).
Proof.
  intros Hh Ho Hg Himp.
  rewrite (validate_handle_imports gbm m handle Hh Ho Hg), Himp.
  cbn [fst snd mem].
  assert (Hrun : registry_run ops
            (mk_machine (current_pid m)
               (Some (set_data (set_data_owner handle (current_pid m)) None))
               (snd (gbm_import gbm handle (trace m))))
          = (map (fun _ => false) ops,
             mk_machine (current_pid m)
               (Some (set_data (set_data_owner handle (current_pid m)) None))
               (snd (gbm_import gbm handle (trace m))))).
  { apply registry_run_poisoned; try reflexivity.
    - apply gralloc_gbm_handle_mem in Hh as Hm. rewrite Hm in Hh.
      eapply gralloc_gbm_handle_set_data.
      eapply gralloc_gbm_handle_set_data_owner. exact Hh.
    - apply current_pid_memoised. }
  repeat split; [exact Hrun | now rewrite Hrun].
Qed.

End Registry.

(** * Concrete runs *)

Lemma working_backend_contract : @map_contract working_backend.
Proof. intros tr b x y w h flags. cbn. split; discriminate. Qed.

Lemma refusing_backend_contract : @map_contract refusing_backend.
Proof. intros tr b x y w h flags. cbn. split; reflexivity. Qed.

Lemma render_target_fresh :
  @fresh_machine sample_platform render_target.
Proof.
  exact (@gralloc_gbm_bo_create_fresh sample_platform working_backend
           gbm_device 640 480 HAL_PIXEL_FORMAT_RGBA_8888
           GRALLOC_USAGE_HW_RENDER boot _ eq_refl).
Qed.

Lemma read_buffer_fresh :
  @fresh_machine sample_platform
    (created HAL_PIXEL_FORMAT_RGBA_8888 GRALLOC_USAGE_SW_READ_OFTEN).
Proof.
  exact (@gralloc_gbm_bo_create_fresh sample_platform working_backend
           gbm_device 640 480 HAL_PIXEL_FORMAT_RGBA_8888
           GRALLOC_USAGE_SW_READ_OFTEN boot _ eq_refl).
Qed.

(** Creating a 640x480 YV12 buffer for CPU writes asks the backend for
    320x720 in GR88 with a linear layout. *)
Example create_yv12_calls :
  trace (created HAL_PIXEL_FORMAT_YV12 GRALLOC_USAGE_SW_WRITE_OFTEN)
  = [GbmBoGetModifier 0x5000; GbmBoGetStride 0x5000; GbmBoGetFd 0x5000;
     GbmBoCreate gbm_device 320 720 GBM_FORMAT_GR88 GBM_BO_USE_LINEAR].
Proof. reflexivity. Qed.

(** Locking it for CPU writes maps 320x720 for reading and writing and
    returns the address; unlocking unmaps with the token of the mapping. *)
Example lock_unlock_yv12 :
  let m := created HAL_PIXEL_FORMAT_YV12 GRALLOC_USAGE_SW_WRITE_OFTEN in
  let '(r1, addr, m1) :=
    @gralloc_gbm_bo_lock sample_platform working_backend
      GRALLOC_USAGE_SW_WRITE_OFTEN 0 0 640 480 m in
  let '(r2, m2) := @gralloc_gbm_bo_unlock sample_platform m1 in
  (r1, addr, hd (GbmBoDestroy 0) (trace m1), r2, hd (GbmBoDestroy 0) (trace m2))
  = (0, Some 0x7f000000, GbmBoMap 0x5000 0 0 320 720 3,
     0, GbmBoUnmap 0x5000 0x8000).
Proof. reflexivity. Qed.

(** Locking a render target for rendering stores no address and counts
    one lock; unlocking brings the count back to zero. *)
Example lock_unlock_render :
  let '(r1, addr, m1) :=
    @gralloc_gbm_bo_lock sample_platform working_backend
      GRALLOC_USAGE_HW_RENDER 0 0 640 480 render_target in
  let '(r2, m2) := @gralloc_gbm_bo_unlock sample_platform m1 in
  (r1, addr,
   option_map lock_count (@gralloc_gbm_bo_from_handle sample_platform (mem m1)),
   r2,
   option_map lock_count (@gralloc_gbm_bo_from_handle sample_platform (mem m2)),
   trace m2)
  = (0, None, Some 1, 0, Some 0, trace render_target).
Proof. reflexivity. Qed.

(** The scenario of the specification: a 640x480 YV12 buffer is created,
    imported and mapped as 320x720. *)
Lemma planar_geometry_agrees_witness :
  (exists fmt flags,
     In (GbmBoCreate gbm_device 320 720 fmt flags)
        (snd (@gbm_alloc sample_platform working_backend gbm_device
                yv12_handle [])))
  /\ (exists d,
        snd (@gbm_import sample_platform working_backend gbm_device
               yv12_handle [])
          = [GbmBoImport gbm_device true d]
        /\ (imp_width d, imp_height d) = (320, 720))
  /\ (exists flags,
        snd (@gbm_map working_backend yv12_handle new_gralloc_gbm_bo_t
               0 0 640 480 1 [])
          = [GbmBoMap 0 0 0 320 720 flags]).
Proof.
  destruct (@planar_geometry_agrees sample_platform working_backend gbm_device
              yv12_handle new_gralloc_gbm_bo_t 640 480 1 [])
    as (Hcreate & Himport & Hmap);
    try reflexivity; try (unfold INT_MAX; lia).
  split; [exact Hcreate | split].
  - apply Himport. cbn. lia.
  - apply Hmap. reflexivity.
Defined.

(** A second lock for CPU reads on a buffer locked for CPU reads is
    refused, though it asks for nothing new. *)
Lemma nested_lock_counterexample :
  ~ @nested_lock_as_stated sample_platform working_backend locked_once
      GRALLOC_USAGE_SW_READ_OFTEN 0 0 640 480.
Proof.
  intros Hclaim.
  edestruct Hclaim as [_ Hgrant]; [split; reflexivity | reflexivity |].
  destruct Hgrant as [Hret _]; [reflexivity|].
  vm_compute in Hret. discriminate Hret.
Qed.

(** A second lock for rendering on a render target locked for rendering
    succeeds and is counted. *)
Lemma nested_lock_outcome_witness :
  fst (fst (@gralloc_gbm_bo_lock sample_platform working_backend
              GRALLOC_USAGE_HW_RENDER 0 0 640 480 render_locked)) = 0.
Proof.
  edestruct (@nested_lock_outcome sample_platform working_backend
               [Lock GRALLOC_USAGE_HW_RENDER 0 0 640 480] render_target)
    as (_ & _ & Hgrant);
    [ exact working_backend_contract | exact render_target_fresh
    | split; reflexivity | reflexivity | ].
  unfold render_locked. rewrite Hgrant; reflexivity.
Defined.

(** Register on a received handle without a file descriptor fails, and the
    handle is owned by this process afterwards. *)
Lemma register_bad_fd_counterexample :
  ~ @register_bad_fd_as_stated sample_platform working_backend gbm_device
      (received (-1)).
Proof.
  intros Hclaim.
  edestruct Hclaim as [_ (handle' & Hmem & Howner)];
    [reflexivity | reflexivity | discriminate |].
  vm_compute in Hmem. injection Hmem as <-.
  discriminate Howner.
Qed.

Lemma register_bad_fd_outcome_witness :
  @gralloc_gbm_handle_register sample_platform working_backend gbm_device
    (received (-1))
  = (- EINVAL,
     mk_machine 1234
       (Some (mk_handle (mk_native 12 13 1) (-1) 0x5f47424d 640 480
                HAL_PIXEL_FORMAT_RGBA_8888 GRALLOC_USAGE_HW_RENDER 2560 0
                1234 None))
       []).
Proof.
  apply (@register_bad_fd_outcome sample_platform working_backend gbm_device
           (received (-1)) (received_handle (-1)));
    [reflexivity | reflexivity | discriminate | discriminate].
Defined.

Lemma mapping_invariant_after_calls_witness :
  mapping_invariant (mk_bo 0x5000 0x8000 1 GRALLOC_USAGE_SW_READ_OFTEN).
Proof.
  eapply (@mapping_invariant_after_calls sample_platform working_backend
            [Lock GRALLOC_USAGE_SW_READ_OFTEN 0 0 640 480]
            (created HAL_PIXEL_FORMAT_RGBA_8888 GRALLOC_USAGE_SW_READ_OFTEN));
    [ exact working_backend_contract | exact read_buffer_fresh
    | split; reflexivity ].
Defined.

Lemma unlock_at_zero_witness :
  @gralloc_gbm_bo_unlock sample_platform render_target = (0, render_target).
Proof.
  edestruct (@unlock_at_zero sample_platform working_backend render_target)
    as [Hidle _]; [split; reflexivity|].
  apply Hidle. reflexivity.
Defined.

(** A texture lock on a buffer created for rendering only has no CPU
    intent, and is refused. *)
Lemma hw_lock_counterexample :
  ~ @hw_lock_as_stated sample_platform working_backend render_target
      GRALLOC_USAGE_HW_TEXTURE 0 0 640 480.
Proof.
  intros Hclaim.
  edestruct Hclaim as (_ & Hret & _); [split; reflexivity | reflexivity |].
  vm_compute in Hret. discriminate Hret.
Qed.

Lemma hw_lock_outcome_witness :
  trace (snd (@gralloc_gbm_bo_lock sample_platform working_backend
                GRALLOC_USAGE_HW_RENDER 0 0 640 480 render_target))
  = trace render_target
  /\ fst (fst (@gralloc_gbm_bo_lock sample_platform working_backend
                 GRALLOC_USAGE_HW_RENDER 0 0 640 480 render_target)) = 0.
Proof.
  edestruct (@hw_lock_outcome sample_platform working_backend render_target)
    as [Htrace Hgrant]; [split; reflexivity | |].
  2:{ split; [exact Htrace|].
      rewrite Hgrant; [reflexivity | reflexivity | reflexivity |].
      cbn. unfold INT_MAX. lia. }
  reflexivity.
Defined.

Lemma resolve_owned_or_check_only_witness :
  fst (@validate_handle sample_platform working_backend gbm_device render_target)
  = Some (mk_bo 0x5000 0 0 0)
  /\ trace (snd (@validate_handle sample_platform working_backend gbm_device
                   render_target))
     = trace render_target.
Proof.
  edestruct (@resolve_owned_or_check_only sample_platform working_backend
               gbm_device render_target) as [Howned _]; [reflexivity|].
  destruct Howned as (Hbo & Htrace & _); [reflexivity|].
  split; [rewrite Hbo; reflexivity | exact Htrace].
Defined.

Lemma lock_error_keeps_count_witness :
  exists b',
    @gralloc_gbm_bo_from_handle sample_platform
      (mem (snd (@gralloc_gbm_bo_lock sample_platform working_backend
                   GRALLOC_USAGE_SW_READ_OFTEN 0 0 640 480 locked_once)))
    = Some b'
    /\ lock_count b' = 1 /\ locked_for b' = GRALLOC_USAGE_SW_READ_OFTEN.
Proof.
  edestruct (@lock_error_keeps_count sample_platform working_backend
               locked_once GRALLOC_USAGE_SW_READ_OFTEN 0 0 640 480)
    as [Hkeep _]; [vm_compute; discriminate|].
  edestruct Hkeep as (b' & [_ Hres] & Hcount & Hmask); [split; reflexivity|].
  exists b'. split; [exact Hres|]. split; [exact Hcount | exact Hmask].
Defined.

Lemma failed_import_is_final_witness :
  @registry_run sample_platform refusing_backend
    [Register gbm_device; Resolve gbm_device; Unregister]
    (snd (@validate_handle sample_platform refusing_backend gbm_device
            (received 5)))
  = ([false; false; false],
     snd (@validate_handle sample_platform refusing_backend gbm_device
            (received 5))).
Proof.
  destruct (@failed_import_is_final sample_platform refusing_backend
              gbm_device (received 5) (received_handle 5)
              [Register gbm_device; Resolve gbm_device; Unregister])
    as (_ & _ & Hrun & _);
    [reflexivity | discriminate | discriminate | reflexivity |].
  exact Hrun.
Defined.

(** * Further properties *)

(** ** The translators *)

Lemma get_gbm_format_cases (f : Z) :
  (f = HAL_PIXEL_FORMAT_RGBA_8888 /\ get_gbm_format f = GBM_FORMAT_ABGR8888)
  \/ (f = HAL_PIXEL_FORMAT_RGBX_8888 /\ get_gbm_format f = GBM_FORMAT_XBGR8888)
  \/ (f = HAL_PIXEL_FORMAT_RGB_888 /\ get_gbm_format f = GBM_FORMAT_RGB888)
  \/ (f = HAL_PIXEL_FORMAT_RGB_565 /\ get_gbm_format f = GBM_FORMAT_RGB565)
  \/ (f = HAL_PIXEL_FORMAT_BGRA_8888 /\ get_gbm_format f = GBM_FORMAT_ARGB8888)
  \/ (f = HAL_PIXEL_FORMAT_YV12 /\ get_gbm_format f = GBM_FORMAT_GR88)
  \/ (~ In f supported_formats /\ get_gbm_format f = 0).
Proof.
  unfold get_gbm_format.
  destruct (Z.eqb_spec f HAL_PIXEL_FORMAT_RGBA_8888) as [E|N1]; [tauto|].
  destruct (Z.eqb_spec f HAL_PIXEL_FORMAT_RGBX_8888) as [E|N2]; [tauto|].
  destruct (Z.eqb_spec f HAL_PIXEL_FORMAT_RGB_888) as [E|N3]; [tauto|].
  destruct (Z.eqb_spec f HAL_PIXEL_FORMAT_RGB_565) as [E|N4]; [tauto|].
  destruct (Z.eqb_spec f HAL_PIXEL_FORMAT_BGRA_8888) as [E|N5]; [tauto|].
  destruct (Z.eqb_spec f HAL_PIXEL_FORMAT_YV12) as [E|N6]; [tauto|].
  do 6 right. split.
  - unfold supported_formats. cbn [In]. intuition congruence.
  - now destruct (f =? HAL_PIXEL_FORMAT_YCbCr_422_SP),
                 (f =? HAL_PIXEL_FORMAT_YCrCb_420_SP).
Qed.

Lemma get_gbm_format_range (f : Z) : 0 <= get_gbm_format f < 2 ^ 31.
Proof.
  destruct (get_gbm_format_cases f)
    as [[_ ->]|[[_ ->]|[[_ ->]|[[_ ->]|[[_ ->]|[[_ ->]|[_ ->]]]]]]];
    vm_compute; split; congruence.
Qed.

(** X1.  [get_gbm_format] gives a backend format other than zero exactly for
    the six formats it knows, gives different backend formats for different
    ones of them, and every result fits an [int], so the conversions on the
    way to the backend leave it as it is. *)
Theorem get_gbm_format_faithful (f g : Z) :
  (get_gbm_format f <> 0 <-> In f supported_formats)
  /\ (get_gbm_format f <> 0 -> get_gbm_format f = get_gbm_format g -> f = g)
  /\ to_u32 (to_int (get_gbm_format f)) = get_gbm_format f.
Proof.
  split; [|split].
  - destruct (get_gbm_format_cases f)
      as [[-> ->]|[[-> ->]|[[-> ->]|[[-> ->]|[[-> ->]|[[-> ->]|[Hn ->]]]]]]];
      try (split; [intros _; unfold supported_formats; cbn [In]; tauto
                  | intros _; vm_compute; discriminate]).
    split; [congruence | contradiction].
  - intros Hf Hfg.
    destruct (get_gbm_format_cases f)
      as [[-> Ef]|[[-> Ef]|[[-> Ef]|[[-> Ef]|[[-> Ef]|[[-> Ef]|[_ Ef]]]]]]];
      try congruence;
      destruct (get_gbm_format_cases g)
        as [[-> Eg]|[[-> Eg]|[[-> Eg]|[[-> Eg]|[[-> Eg]|[[-> Eg]|[_ Eg]]]]]]];
      try reflexivity; rewrite Ef, Eg in Hfg; vm_compute in Hfg;
      discriminate Hfg.
  - rewrite to_u32_to_int. apply to_u32_small.
    pose proof (get_gbm_format_range f). lia.
Qed.

Lemma get_gbm_format_faithful_witness :
  In HAL_PIXEL_FORMAT_YV12 supported_formats
  /\ to_u32 (to_int (get_gbm_format HAL_PIXEL_FORMAT_YV12)) = GBM_FORMAT_GR88.
Proof.
  destruct (get_gbm_format_faithful HAL_PIXEL_FORMAT_YV12
              HAL_PIXEL_FORMAT_RGB_565) as (Hin & _ & Hfit).
  split; [apply Hin; vm_compute; discriminate | exact Hfit].
Defined.

Lemma test_land_mask (u mask m : Z) :
  Z.land mask m = m -> test (Z.land u mask) m = test u m.
Proof.
  intros Hm. unfold test. now rewrite <- Z.land_assoc, Hm.
Qed.

Lemma get_pipe_bind_range (u : Z) : 0 <= get_pipe_bind u <= 21.
Proof.
  unfold get_pipe_bind.
  destruct (test u (Z.lor GRALLOC_USAGE_SW_READ_OFTEN GRALLOC_USAGE_SW_WRITE_OFTEN)),
    (test u GRALLOC_USAGE_CURSOR),
    (test u (Z.lor GRALLOC_USAGE_HW_RENDER GRALLOC_USAGE_HW_TEXTURE)),
    (test u GRALLOC_USAGE_HW_FB); vm_compute; split; congruence.
Qed.

(** X2.  [get_pipe_bind] composes over the union of usages, looks at no bit
    but those of SW_READ_OFTEN, SW_WRITE_OFTEN, HW_RENDER, HW_TEXTURE and
    HW_FB, and in particular gives the cursor usage no binding at all. *)
Theorem get_pipe_bind_union (u v : Z) :
  get_pipe_bind (Z.lor u v) = Z.lor (get_pipe_bind u) (get_pipe_bind v)
  /\ get_pipe_bind (Z.land u BIND_USAGE_MASK) = get_pipe_bind u
  /\ get_pipe_bind (Z.lor u GRALLOC_USAGE_CURSOR) = get_pipe_bind u
  /\ Z.land (get_pipe_bind u) GBM_BO_USE_CURSOR = 0.
Proof.
  assert (Hunion : forall a b,
             get_pipe_bind (Z.lor a b)
             = Z.lor (get_pipe_bind a) (get_pipe_bind b)).
  { intros a b. unfold get_pipe_bind. rewrite !test_lor.
    destruct
      (test a (Z.lor GRALLOC_USAGE_SW_READ_OFTEN GRALLOC_USAGE_SW_WRITE_OFTEN)),
      (test b (Z.lor GRALLOC_USAGE_SW_READ_OFTEN GRALLOC_USAGE_SW_WRITE_OFTEN)),
      (test a (Z.lor GRALLOC_USAGE_HW_RENDER GRALLOC_USAGE_HW_TEXTURE)),
      (test b (Z.lor GRALLOC_USAGE_HW_RENDER GRALLOC_USAGE_HW_TEXTURE)),
      (test a GRALLOC_USAGE_HW_FB), (test b GRALLOC_USAGE_HW_FB),
      (test a GRALLOC_USAGE_CURSOR), (test b GRALLOC_USAGE_CURSOR);
      reflexivity. }
  split; [apply Hunion | split; [|split]].
  - unfold get_pipe_bind.
    rewrite (test_land_mask u BIND_USAGE_MASK
               (Z.lor GRALLOC_USAGE_SW_READ_OFTEN GRALLOC_USAGE_SW_WRITE_OFTEN))
      by reflexivity.
    rewrite (test_land_mask u BIND_USAGE_MASK
               (Z.lor GRALLOC_USAGE_HW_RENDER GRALLOC_USAGE_HW_TEXTURE))
      by reflexivity.
    rewrite (test_land_mask u BIND_USAGE_MASK GRALLOC_USAGE_HW_FB)
      by reflexivity.
    now destruct (test (Z.land u BIND_USAGE_MASK) GRALLOC_USAGE_CURSOR),
                 (test u GRALLOC_USAGE_CURSOR).
  - rewrite Hunion. replace (get_pipe_bind GRALLOC_USAGE_CURSOR) with 0
      by reflexivity.
    apply Z.lor_0_r.
  - unfold get_pipe_bind.
    destruct
      (test u (Z.lor GRALLOC_USAGE_SW_READ_OFTEN GRALLOC_USAGE_SW_WRITE_OFTEN)),
      (test u GRALLOC_USAGE_CURSOR),
      (test u (Z.lor GRALLOC_USAGE_HW_RENDER GRALLOC_USAGE_HW_TEXTURE)),
      (test u GRALLOC_USAGE_HW_FB); reflexivity.
Qed.

Section Allocation.

Context {P : Platform} {B : GbmBackend}.

(** ** Allocation *)

Lemma get_pipe_bind_fits (u : Z) :
  to_u32 (to_int (get_pipe_bind u)) = get_pipe_bind u.
Proof.
  rewrite to_u32_to_int. apply to_u32_small.
  pose proof (get_pipe_bind_range u). lia.
Qed.

Lemma get_gbm_format_fits (f : Z) :
  to_u32 (to_int (get_gbm_format f)) = get_gbm_format f.
Proof.
  rewrite to_u32_to_int. apply to_u32_small.
  pose proof (get_gbm_format_range f). lia.
Qed.

(** [gbm_alloc] with its one decision spelled out. *)
Lemma gbm_alloc_spec (gbm : Z) (handle : gralloc_gbm_handle_t)
    (tr : list gbm_call) :
  let W := to_u32 (fst (gbm_alloc_geometry handle)) in
  let H := to_u32 (snd (gbm_alloc_geometry handle)) in
  let F := get_gbm_format (format handle) in
  let U := get_pipe_bind (usage handle) in
  let b := gbm_bo_create tr gbm W H F U in
  let tr1 := GbmBoCreate gbm W H F U :: tr in
  let tr2 := GbmBoGetFd b :: tr1 in
  let tr3 := GbmBoGetStride b :: tr2 in
  gbm_alloc gbm handle tr
  = if b =? 0 then (None, handle, tr1)
    else if GBM_BO_IMPORT_FD_MODIFIER
         then (Some (mk_bo b 0 0 0),
               set_export handle (gbm_bo_get_fd tr1 b)
                 (to_int (gbm_bo_get_stride tr2 b))
                 (gbm_bo_get_modifier tr3 b),
               GbmBoGetModifier b :: tr3)
         else (Some (mk_bo b 0 0 0),
               set_export handle (gbm_bo_get_fd tr1 b)
                 (to_int (gbm_bo_get_stride tr2 b)) (modifier handle),
               tr3).
Proof.
  unfold gbm_alloc.
  destruct (gbm_alloc_geometry handle) as [w h]. cbn [fst snd].
  rewrite get_gbm_format_fits, get_pipe_bind_fits. cbn zeta.
  destruct (_ =? 0); [reflexivity|].
  now destruct GBM_BO_IMPORT_FD_MODIFIER.
Qed.

(** X3.  For every format but YV12, [gbm_alloc] asks the backend for
    exactly the width and height of the handle, whatever the usage and
    however small the buffer (no size is ever raised to 64), with the
    format [get_gbm_format] gives (zero for a format it does not know: the
    refusal is left to the backend) and the flags [get_pipe_bind] gives;
    the only later calls read properties of the new object. *)
Theorem gbm_alloc_create_call (gbm : Z) (handle : gralloc_gbm_handle_t)
    (tr : list gbm_call) :
  format handle <> HAL_PIXEL_FORMAT_YV12 ->
  exists later,
    snd (gbm_alloc gbm handle tr)
    = later ++ GbmBoCreate gbm (to_u32 (width handle)) (to_u32 (height handle))
                 (get_gbm_format (format handle))
                 (get_pipe_bind (usage handle)) :: tr
    /\ forallb is_query later = true.
Proof.
  intros Hf. rewrite gbm_alloc_spec, gbm_alloc_geometry_no_clamp.
  destruct (Z.eqb_spec (format handle) HAL_PIXEL_FORMAT_YV12) as [E|_];
    [contradiction|].
  cbn [fst snd]. cbn zeta.
  destruct (_ =? 0).
  - exists []. now split.
  - destruct GBM_BO_IMPORT_FD_MODIFIER; cbn [snd].
    + eexists [_; _; _]. now split.
    + eexists [_; _]. now split.
Qed.

Lemma current_pid_set_trace (m : machine) (tr : list gbm_call) :
  current_pid (set_trace m tr) = current_pid m.
Proof.
  unfold current_pid, gralloc_gbm_get_pid, set_trace. cbn [gralloc_gbm_pid].
  now destruct (gralloc_gbm_pid m =? 0).
Qed.

(** What [gralloc_gbm_bo_create] gives when it gives a handle. *)
Lemma gralloc_gbm_bo_create_success (gbm w h fmt usg : Z) (m : machine)
    (handle : gralloc_gbm_handle_t) :
  fst (gralloc_gbm_bo_create gbm w h fmt usg m) = Some handle ->
  exists b fd st md tr,
    b <> 0
    /\ handle
       = mk_handle
           (mk_native sizeof_native_handle_t GRALLOC_GBM_HANDLE_NUM_INTS
                      GRALLOC_GBM_HANDLE_NUM_FDS)
           fd GRALLOC_GBM_HANDLE_MAGIC w h fmt usg st md (current_pid m)
           (Some (mk_bo b 0 0 0))
    /\ snd (gralloc_gbm_bo_create gbm w h fmt usg m)
       = mk_machine (current_pid m) (Some handle) tr.
Proof.
  unfold gralloc_gbm_bo_create. rewrite gbm_alloc_spec. cbn zeta.
  destruct (Z.eqb_spec
              (gbm_bo_create (trace m) gbm
                 (to_u32 (fst (gbm_alloc_geometry (create_bo_handle w h fmt usg))))
                 (to_u32 (snd (gbm_alloc_geometry (create_bo_handle w h fmt usg))))
                 (get_gbm_format (format (create_bo_handle w h fmt usg)))
                 (get_pipe_bind (usage (create_bo_handle w h fmt usg)))) 0)
    as [E|Hb]; [discriminate|].
  destruct GBM_BO_IMPORT_FD_MODIFIER;
    rewrite gralloc_gbm_get_pid_spec, current_pid_set_trace;
    unfold set_trace, set_mem, set_data, set_data_owner, set_export,
      create_bo_handle;
    cbn [fst snd gralloc_gbm_pid mem trace base prime_fd magic width height
         format usage stride modifier data_owner data];
    intros [= <-];
    do 5 eexists; (split; [exact Hb | split; reflexivity]).
Qed.

(** X4.  When the backend creates nothing, [gralloc_gbm_bo_create] gives no
    handle, leaves the handle the machine holds and the memoised pid as
    they were, and has made the one call to [gbm_bo_create] and no other. *)
Theorem gralloc_gbm_bo_create_failure (gbm w h fmt usg : Z) (m : machine) :
  fst (gralloc_gbm_bo_create gbm w h fmt usg m) = None ->
  mem (snd (gralloc_gbm_bo_create gbm w h fmt usg m)) = mem m
  /\ gralloc_gbm_pid (snd (gralloc_gbm_bo_create gbm w h fmt usg m))
     = gralloc_gbm_pid m
  /\ exists W H,
       trace (snd (gralloc_gbm_bo_create gbm w h fmt usg m))
       = GbmBoCreate gbm W H (get_gbm_format fmt) (get_pipe_bind usg)
           :: trace m
       /\ gbm_bo_create (trace m) gbm W H (get_gbm_format fmt)
            (get_pipe_bind usg) = 0.
Proof.
  unfold gralloc_gbm_bo_create. rewrite gbm_alloc_spec. cbn zeta.
  destruct (Z.eqb_spec
              (gbm_bo_create (trace m) gbm
                 (to_u32 (fst (gbm_alloc_geometry (create_bo_handle w h fmt usg))))
                 (to_u32 (snd (gbm_alloc_geometry (create_bo_handle w h fmt usg))))
                 (get_gbm_format (format (create_bo_handle w h fmt usg)))
                 (get_pipe_bind (usage (create_bo_handle w h fmt usg)))) 0)
    as [E|Hb].
  - intros _. cbn [fst snd set_trace mem gralloc_gbm_pid trace].
    split; [reflexivity | split; [reflexivity|]].
    do 2 eexists. split; [reflexivity | exact E].
  - destruct GBM_BO_IMPORT_FD_MODIFIER;
      rewrite gralloc_gbm_get_pid_spec; cbn [fst]; discriminate.
Qed.

End Allocation.

(** A cursor-sized, cursor-usage buffer is created 16x16. *)
Lemma gbm_alloc_create_call_witness :
  exists later,
    snd (@gbm_alloc sample_platform working_backend gbm_device
           (@create_bo_handle sample_platform 16 16 HAL_PIXEL_FORMAT_BGRA_8888
              (Z.lor GRALLOC_USAGE_CURSOR GRALLOC_USAGE_HW_FB)) [])
    = later ++ [GbmBoCreate gbm_device 16 16 GBM_FORMAT_ARGB8888
                  GBM_BO_USE_SCANOUT]
    /\ forallb is_query later = true.
Proof.
  apply (@gbm_alloc_create_call sample_platform working_backend gbm_device
           (@create_bo_handle sample_platform 16 16 HAL_PIXEL_FORMAT_BGRA_8888
              (Z.lor GRALLOC_USAGE_CURSOR GRALLOC_USAGE_HW_FB)) []).
  vm_compute. discriminate.
Defined.

Lemma gralloc_gbm_bo_create_failure_witness :
  mem (snd (@gralloc_gbm_bo_create sample_platform exhausted_backend
              gbm_device 640 480 HAL_PIXEL_FORMAT_RGBA_8888
              GRALLOC_USAGE_HW_RENDER render_target))
  = mem render_target.
Proof.
  apply (@gralloc_gbm_bo_create_failure sample_platform exhausted_backend
           gbm_device 640 480 HAL_PIXEL_FORMAT_RGBA_8888
           GRALLOC_USAGE_HW_RENDER render_target).
  reflexivity.
Defined.

Section Lifecycle.

Context {P : Platform} {B : GbmBackend}.

(** ** From creation to unregistration *)

Lemma current_pid_unset (m : machine) :
  gralloc_gbm_pid m = 0 -> current_pid m = getpid.
Proof.
  intros H0. unfold current_pid, gralloc_gbm_get_pid. now rewrite H0.
Qed.

Lemma current_pid_set (m : machine) :
  gralloc_gbm_pid m <> 0 -> current_pid m = gralloc_gbm_pid m.
Proof.
  intros Hn. unfold current_pid, gralloc_gbm_get_pid.
  now destruct (Z.eqb_spec (gralloc_gbm_pid m) 0).
Qed.

Lemma created_handle_valid (fd w h fmt usg st md owner : Z)
    (d : option gralloc_gbm_bo_t) :
  let handle :=
    mk_handle
      (mk_native sizeof_native_handle_t GRALLOC_GBM_HANDLE_NUM_INTS
                 GRALLOC_GBM_HANDLE_NUM_FDS)
      fd GRALLOC_GBM_HANDLE_MAGIC w h fmt usg st md owner d in
  gralloc_gbm_handle (Some handle) = Some handle.
Proof.
  unfold gralloc_gbm_handle. cbn [base version numInts numFds magic].
  now rewrite !Z.eqb_refl.
Qed.

(** X5.  A handle that [gralloc_gbm_bo_create] returns records the size,
    format and usage asked for, is the handle the machine holds, passes
    the validity test of [gralloc_gbm_handle], is owned by the memoised
    pid and points to an object never locked; [validate_handle] gives that
    object back with or without a backend context and changes nothing; and
    as long as the memoised pid is unset or is what [getpid()] returns,
    Lock and Unlock resolve it too. *)
Theorem create_then_resolve (gbm gbm' w h fmt usg : Z) (m : machine)
    (handle : gralloc_gbm_handle_t) :
  fst (gralloc_gbm_bo_create gbm w h fmt usg m) = Some handle ->
  mem (snd (gralloc_gbm_bo_create gbm w h fmt usg m)) = Some handle
  /\ (width handle, height handle, format handle, usage handle)
     = (w, h, fmt, usg)
  /\ gralloc_gbm_handle (Some handle) = Some handle
  /\ data_owner handle = current_pid m
  /\ exists b,
       data handle = Some b /\ fresh_bo b
       /\ validate_handle gbm' (snd (gralloc_gbm_bo_create gbm w h fmt usg m))
          = (Some b, snd (gralloc_gbm_bo_create gbm w h fmt usg m))
       /\ (gralloc_gbm_pid m = 0 \/ gralloc_gbm_pid m = getpid ->
           resolves (snd (gralloc_gbm_bo_create gbm w h fmt usg m)) handle b).
Proof.
  intros Hc.
  destruct (gralloc_gbm_bo_create_success _ _ _ _ _ _ _ Hc)
    as (b & fd & st & md & tr & Hb & -> & ->).
  pose proof (created_handle_valid fd w h fmt usg st md (current_pid m)
                (Some (mk_bo b 0 0 0))) as Hvalid.
  cbn zeta in Hvalid. cbn [mem].
  split; [reflexivity | split; [reflexivity | split; [exact Hvalid|]]].
  split; [reflexivity|].
  exists (mk_bo b 0 0 0). cbn [data].
  split; [reflexivity | split; [now repeat split | split]].
  - erewrite validate_handle_owned; [| exact Hvalid |].
    + cbn [mem trace data]. now rewrite current_pid_memoised.
    + cbn [data_owner]. now rewrite current_pid_memoised.
  - intros Hpid. split; [exact Hvalid|].
    unfold gralloc_gbm_bo_from_handle. cbn [mem]. rewrite Hvalid.
    cbn [data_owner data].
    assert (Hcp : current_pid m = getpid).
    { destruct Hpid as [H0|Hg]; [now apply current_pid_unset|].
      unfold current_pid, gralloc_gbm_get_pid. rewrite Hg.
      now destruct (getpid =? 0). }
    now rewrite Hcp, Z.eqb_refl.
Qed.

(** X6.  [validate_handle] compares the owner with the memoised pid, Lock
    and Unlock compare it with [getpid()].  In a process whose memoised
    pid is set and is not what [getpid()] returns (one forked after the
    first call), a handle created there validates, but Lock and Unlock on
    it fail with [-EINVAL] and change nothing. *)
Theorem stale_pid_cannot_lock (gbm gbm' w h fmt usg req x y lw lh : Z)
    (m : machine) (handle : gralloc_gbm_handle_t) :
  fst (gralloc_gbm_bo_create gbm w h fmt usg m) = Some handle ->
  gralloc_gbm_pid m <> 0 -> gralloc_gbm_pid m <> getpid ->
  fst (validate_handle gbm' (snd (gralloc_gbm_bo_create gbm w h fmt usg m)))
    = data handle
  /\ data handle <> None
  /\ gralloc_gbm_bo_lock req x y lw lh
       (snd (gralloc_gbm_bo_create gbm w h fmt usg m))
     = (- EINVAL, None, snd (gralloc_gbm_bo_create gbm w h fmt usg m))
  /\ gralloc_gbm_bo_unlock (snd (gralloc_gbm_bo_create gbm w h fmt usg m))
     = (- EINVAL, snd (gralloc_gbm_bo_create gbm w h fmt usg m)).
Proof.
  intros Hc Hset Hstale.
  destruct (gralloc_gbm_bo_create_success _ _ _ _ _ _ _ Hc)
    as (b & fd & st & md & tr & Hb & -> & ->).
  pose proof (created_handle_valid fd w h fmt usg st md (current_pid m)
                (Some (mk_bo b 0 0 0))) as Hvalid.
  cbn zeta in Hvalid.
  assert (Hnone :
            gralloc_gbm_bo_from_handle
              (mem (mk_machine (current_pid m)
                      (Some (mk_handle
                         (mk_native sizeof_native_handle_t
                            GRALLOC_GBM_HANDLE_NUM_INTS
                            GRALLOC_GBM_HANDLE_NUM_FDS)
                         fd GRALLOC_GBM_HANDLE_MAGIC w h fmt usg st md
                         (current_pid m) (Some (mk_bo b 0 0 0)))) tr)) = None).
  { unfold gralloc_gbm_bo_from_handle. cbn [mem]. rewrite Hvalid.
    cbn [data_owner]. rewrite (current_pid_set m Hset).
    now destruct (Z.eqb_spec (gralloc_gbm_pid m) getpid). }
  split; [|split; [discriminate | split]].
  - erewrite validate_handle_owned; [reflexivity | exact Hvalid |].
    cbn [data_owner]. now rewrite current_pid_memoised.
  - exact (lock_unresolved _ _ _ _ _ _ Hnone).
  - exact (unlock_unresolved _ Hnone).
Qed.

Lemma gbm_import_success (gbm : Z) (handle : gralloc_gbm_handle_t)
    (tr : list gbm_call) (b : gralloc_gbm_bo_t) :
  fst (gbm_import gbm handle tr) = Some b ->
  exists d,
    snd (gbm_import gbm handle tr)
      = GbmBoImport gbm GBM_BO_IMPORT_FD_MODIFIER d :: tr
    /\ b = mk_bo (gbm_bo_import tr gbm d) 0 0 0
    /\ (imp_width d, imp_height d) = gbm_import_geometry handle
    /\ imp_format d = get_gbm_format (format handle)
    /\ imp_fd d = prime_fd handle
    /\ imp_stride d = (if GBM_BO_IMPORT_FD_MODIFIER then stride handle
                       else to_u32 (stride handle)).
Proof.
  unfold gbm_import. destruct (prime_fd handle <? 0); [discriminate|].
  destruct (gbm_import_geometry handle) as [w h].
  rewrite get_gbm_format_fits.
  destruct (_ =? 0); [discriminate|].
  cbn [fst snd]. intros [= <-]. eexists. repeat split.
Qed.

(** X7.  Register with a backend context on a valid handle of another owner
    whose import succeeds returns 0 after exactly one import call, leaves
    the handle owned by the current process and pointing to an object
    never locked; registering again, with any context, returns 0 and
    changes nothing, so nothing is imported twice. *)
Theorem register_imports_once (gbm gbm' : Z) (m : machine)
    (handle : gralloc_gbm_handle_t) (b : gralloc_gbm_bo_t) :
  gralloc_gbm_handle (mem m) = Some handle ->
  data_owner handle <> current_pid m -> gbm <> 0 ->
  fst (gbm_import gbm handle (trace m)) = Some b ->
  fst (gralloc_gbm_handle_register gbm m) = 0
  /\ mem (snd (gralloc_gbm_handle_register gbm m))
     = Some (set_data (set_data_owner handle (current_pid m)) (Some b))
  /\ fresh_bo b
  /\ import_calls (trace (snd (gralloc_gbm_handle_register gbm m)))
     = S (import_calls (trace m))
  /\ gralloc_gbm_handle_register gbm' (snd (gralloc_gbm_handle_register gbm m))
     = (0, snd (gralloc_gbm_handle_register gbm m)).
Proof.
  intros Hh Ho Hg Himp.
  pose proof (gbm_import_fresh _ _ _ _ Himp) as Hfresh.
  destruct (gbm_import_success _ _ _ _ Himp) as (d & Htr & _).
  assert (Hreg :
            gralloc_gbm_handle_register gbm m
            = (0, mk_machine (current_pid m)
                    (Some (set_data (set_data_owner handle (current_pid m))
                                    (Some b)))
                    (GbmBoImport gbm GBM_BO_IMPORT_FD_MODIFIER d :: trace m))).
  { unfold gralloc_gbm_handle_register.
    now rewrite (validate_handle_imports gbm m handle Hh Ho Hg), Himp, Htr. }
  rewrite Hreg. cbn [fst snd mem trace import_calls].
  split; [reflexivity | split; [reflexivity | split; [exact Hfresh|]]].
  split; [reflexivity|].
  assert (Hv : gralloc_gbm_handle
                 (Some (set_data (set_data_owner handle (current_pid m))
                                 (Some b)))
               = Some (set_data (set_data_owner handle (current_pid m))
                                (Some b))).
  { apply gralloc_gbm_handle_mem in Hh as Hm. rewrite Hm in Hh.
    eapply gralloc_gbm_handle_set_data.
    eapply gralloc_gbm_handle_set_data_owner. exact Hh. }
  unfold gralloc_gbm_handle_register.
  erewrite validate_handle_owned; [| exact Hv |].
  - cbn [mem trace data set_data]. now rewrite current_pid_memoised.
  - cbn [set_data set_data_owner data_owner].
    now rewrite current_pid_memoised.
Qed.

(** X8.  Unregister on a valid handle owned by the current process with an
    object behind it returns 0 whatever the lock state of the object:
    it makes the one call that destroys the backend object (none to unmap
    it) and clears the owner and the data reference of the handle and
    nothing else.  Unregister once more fails with [-EINVAL] and destroys
    nothing. *)
Theorem unregister_once (m : machine) (handle : gralloc_gbm_handle_t)
    (b : gralloc_gbm_bo_t) :
  gralloc_gbm_handle (mem m) = Some handle ->
  data_owner handle = current_pid m -> data handle = Some b ->
  gralloc_gbm_handle_unregister m
  = (0, mk_machine (current_pid m)
          (Some (set_data (set_data_owner handle 0) None))
          (GbmBoDestroy (bo b) :: trace m))
  /\ gralloc_gbm_handle_unregister (snd (gralloc_gbm_handle_unregister m))
     = (- EINVAL, snd (gralloc_gbm_handle_unregister m)).
Proof.
  intros Hh Ho Hd.
  assert (Hfirst :
            gralloc_gbm_handle_unregister m
            = (0, mk_machine (current_pid m)
                    (Some (set_data (set_data_owner handle 0) None))
                    (GbmBoDestroy (bo b) :: trace m))).
  { unfold gralloc_gbm_handle_unregister.
    rewrite (validate_handle_owned 0 m handle Hh Ho), Hd.
    cbn [gralloc_gbm_pid mem trace gbm_free].
    now rewrite (gralloc_gbm_handle_mem _ _ Hh). }
  split; [exact Hfirst|]. rewrite Hfirst. cbn [snd].
  assert (Hv : gralloc_gbm_handle
                 (Some (set_data (set_data_owner handle 0) None))
               = Some (set_data (set_data_owner handle 0) None)).
  { apply gralloc_gbm_handle_mem in Hh as Hm. rewrite Hm in Hh.
    eapply gralloc_gbm_handle_set_data.
    eapply gralloc_gbm_handle_set_data_owner. exact Hh. }
  unfold gralloc_gbm_handle_unregister.
  destruct (Z.eq_dec 0 (current_pid m)) as [E|N].
  - erewrite validate_handle_owned; [| exact Hv |].
    + cbn [mem trace data set_data]. now rewrite current_pid_memoised.
    + cbn [set_data set_data_owner data_owner].
      now rewrite current_pid_memoised.
  - erewrite validate_handle_check_only; [| exact Hv |].
    + cbn [mem trace]. now rewrite current_pid_memoised.
    + cbn [set_data set_data_owner data_owner].
      now rewrite current_pid_memoised.
Qed.

End Lifecycle.

Section Sharing.

Context {P : Platform} {B : GbmBackend}.

(** ** From one process to another *)

Lemma alloc_import_geometry (handle : gralloc_gbm_handle_t) :
  0 <= width handle <= INT_MAX -> 0 <= height handle <= INT_MAX ->
  (to_u32 (fst (gbm_alloc_geometry handle)),
   to_u32 (snd (gbm_alloc_geometry handle)))
  = gbm_import_geometry handle.
Proof.
  intros Hw Hh.
  destruct (Z.eq_dec (format handle) HAL_PIXEL_FORMAT_YV12) as [Hf|Hf].
  - destruct (planar_geometry handle _ _ Hf eq_refl eq_refl Hw Hh)
      as (Ha & Hi & _).
    now rewrite Ha, Hi.
  - rewrite gbm_alloc_geometry_no_clamp. unfold gbm_import_geometry.
    now destruct (Z.eqb_spec (format handle) HAL_PIXEL_FORMAT_YV12).
Qed.

Lemma gbm_import_call (gbm : Z) (handle : gralloc_gbm_handle_t)
    (tr : list gbm_call) :
  0 <= prime_fd handle ->
  snd (gbm_import gbm handle tr)
  = GbmBoImport gbm GBM_BO_IMPORT_FD_MODIFIER
      (mk_import_data (fst (gbm_import_geometry handle))
         (snd (gbm_import_geometry handle))
         (get_gbm_format (format handle)) (prime_fd handle)
         (if GBM_BO_IMPORT_FD_MODIFIER then stride handle
          else to_u32 (stride handle))
         (if GBM_BO_IMPORT_FD_MODIFIER then modifier handle else 0))
    :: tr.
Proof.
  intros Hfd. unfold gbm_import.
  destruct (Z.ltb_spec (prime_fd handle) 0) as [Hneg|_]; [lia|].
  destruct (gbm_import_geometry handle) as [w h].
  rewrite get_gbm_format_fits. cbn [fst snd].
  now destruct (_ =? 0).
Qed.

(** X9.  A handle that [gbm_alloc] has filled in, with a file descriptor
    that is not negative, is imported by [gbm_import] (in any process,
    against any trace) with the width, height and format that
    [gbm_bo_create] was called with and the file descriptor
    [gbm_bo_get_fd] returned.  The stride it passes is the one
    [gbm_bo_get_stride] returned as the handle holds it, an [int]: passed
    as that [int] in the build with modifiers and converted to [uint32_t]
    in the build without, so it is the very number the backend returned
    whenever that fits an [int].  The sizes are those an [int] holds
    without a sign. *)
Theorem export_import_round_trip (gbm gbm' : Z) (handle : gralloc_gbm_handle_t)
    (tr tr' : list gbm_call) (b : gralloc_gbm_bo_t) :
  0 <= width handle <= INT_MAX -> 0 <= height handle <= INT_MAX ->
  fst (fst (gbm_alloc gbm handle tr)) = Some b ->
  0 <= prime_fd (snd (fst (gbm_alloc gbm handle tr))) ->
  exists W H F U later d,
    snd (gbm_alloc gbm handle tr) = later ++ GbmBoCreate gbm W H F U :: tr
    /\ snd (gbm_import gbm' (snd (fst (gbm_alloc gbm handle tr))) tr')
       = GbmBoImport gbm' GBM_BO_IMPORT_FD_MODIFIER d :: tr'
    /\ (imp_width d, imp_height d, imp_format d) = (W, H, F)
    /\ imp_fd d = gbm_bo_get_fd (GbmBoCreate gbm W H F U :: tr) (bo b)
    /\ (let s := gbm_bo_get_stride
                   (GbmBoGetFd (bo b) :: GbmBoCreate gbm W H F U :: tr) (bo b) in
        imp_stride d = (if GBM_BO_IMPORT_FD_MODIFIER then to_int s
                        else to_u32 s)
        /\ (0 <= s <= INT_MAX -> imp_stride d = s)).
Proof.
  intros Hw Hh. pose proof (alloc_import_geometry handle Hw Hh) as Hgeo.
  rewrite gbm_alloc_spec. cbn zeta.
  set (W := to_u32 (fst (gbm_alloc_geometry handle))) in *.
  set (H := to_u32 (snd (gbm_alloc_geometry handle))) in *.
  set (F := get_gbm_format (format handle)).
  set (U := get_pipe_bind (usage handle)).
  destruct (gbm_bo_create tr gbm W H F U =? 0); [discriminate|].
  destruct GBM_BO_IMPORT_FD_MODIFIER eqn:Emod; cbn [fst snd];
    intros [= <-] Hfd; exists W, H, F, U;
    rewrite (gbm_import_call gbm' _ tr' Hfd), Emod;
    [eexists [_; _; _] | eexists [_; _]]; eexists;
    (split; [reflexivity | split; [reflexivity|]]);
    cbn [imp_width imp_height imp_format imp_fd imp_stride bo];
    unfold gbm_import_geometry; cbn [set_export width height format];
    fold (gbm_import_geometry handle); rewrite <- Hgeo; cbn [fst snd];
    (split; [reflexivity | split; [reflexivity|]]);
    cbn [set_export stride].
  - split; [reflexivity|]. intros Hs. apply to_int_small. int_range.
  - rewrite to_u32_to_int. split; [reflexivity|]. intros Hs.
    apply to_u32_small. unfold INT_MAX in Hs. lia.
Qed.

End Sharing.

Section LockSequences.

Context {P : Platform} {B : GbmBackend}.

(** ** Locking in sequence *)

Lemma store_bo_store_bo (m : machine) (g : gralloc_gbm_handle_t)
    (d : option gralloc_gbm_bo_t) (b1 b2 : gralloc_gbm_bo_t)
    (tr1 tr2 : list gbm_call) :
  store_bo (store_bo m g b1 tr1) (set_data g d) b2 tr2 = store_bo m g b2 tr2.
Proof. reflexivity. Qed.

Lemma fresh_bo_eq (b : gralloc_gbm_bo_t) :
  fresh_bo b -> b = mk_bo (bo b) 0 0 0.
Proof.
  destruct b as [p md lc lf]. unfold fresh_bo. cbn.
  intros (Hm & Hc & Hl). now subst.
Qed.

Lemma lock_compatible_unlocked (b : gralloc_gbm_bo_t) (req : Z) :
  lock_count b = 0 -> lock_compatible b req = true.
Proof. unfold lock_compatible. now intros ->. Qed.

(** The mapping case of [gralloc_gbm_bo_lock] with the call it makes. *)
Lemma lock_maps_exact (req x y w h : Z) (m : machine)
    (gbm_handle : gralloc_gbm_handle_t) (b : gralloc_gbm_bo_t) :
  resolves m gbm_handle b ->
  lock_permitted (usage gbm_handle) req = true ->
  lock_compatible b req = true ->
  cpu_intent (Z.lor req (locked_for b)) = true ->
  map_data b = 0 ->
  let u := Z.lor req (locked_for b) in
  let ex := to_u32 (int_add x (fst (gbm_map_geometry gbm_handle w h))) in
  let ey := to_u32 (int_add y (snd (gbm_map_geometry gbm_handle w h))) in
  let flags := if test u GRALLOC_USAGE_SW_WRITE_MASK
               then Z.lor GBM_BO_TRANSFER_READ GBM_BO_TRANSFER_WRITE
               else GBM_BO_TRANSFER_READ in
  let r := gbm_bo_map (trace m) (bo b) 0 0 ex ey flags in
  let tr := GbmBoMap (bo b) 0 0 ex ey flags :: trace m in
  gralloc_gbm_bo_lock req x y w h m
  = if reply_addr r =? 0
    then (- ENOMEM, Some 0,
          store_bo m gbm_handle (set_map_data b (reply_map_data r)) tr)
    else (0, Some (reply_addr r),
          store_bo m gbm_handle
            (mk_bo (bo b) (reply_map_data r) (int_add (lock_count b) 1)
                   (Z.lor (locked_for b) u))
            tr).
Proof.
  intros [Hh Hb] Hp Hc Hu Hmap. unfold gralloc_gbm_bo_lock.
  unfold cpu_intent in Hu. rewrite Hh, Hb, Hp, Hc, Hu. cbn [negb].
  unfold gbm_map. rewrite Hmap. cbn [Z.eqb negb].
  destruct (gbm_map_geometry gbm_handle w h) as [w' h']. cbn [fst snd].
  destruct (test (Z.lor req (locked_for b)) GRALLOC_USAGE_SW_WRITE_MASK);
    cbn zeta; cbn [Z.eqb negb];
    change (to_u32 (Z.lor GBM_BO_TRANSFER_READ GBM_BO_TRANSFER_WRITE))
      with (Z.lor GBM_BO_TRANSFER_READ GBM_BO_TRANSFER_WRITE);
    change (to_u32 GBM_BO_TRANSFER_READ) with GBM_BO_TRANSFER_READ;
    destruct (reply_addr _ =? 0); reflexivity.
Qed.

(** X10.  A permitted lock with a CPU intent on an object that is neither
    locked nor mapped makes one backend call: [gbm_bo_map] from the origin
    over [x + w] by [y + h] (for every format but YV12), for reading, and
    for writing too exactly when the usage has a bit of the software write
    mask.  It returns 0 and the address of the backend, or [-ENOMEM] when
    the backend returns no address. *)
Theorem cpu_lock_maps (req x y w h : Z) (m : machine)
    (gbm_handle : gralloc_gbm_handle_t) (b : gralloc_gbm_bo_t) :
  resolves m gbm_handle b ->
  lock_count b = 0 -> map_data b = 0 ->
  lock_permitted (usage gbm_handle) req = true ->
  cpu_intent (Z.lor req (locked_for b)) = true ->
  format gbm_handle <> HAL_PIXEL_FORMAT_YV12 ->
  let flags := if test (Z.lor req (locked_for b)) GRALLOC_USAGE_SW_WRITE_MASK
               then Z.lor GBM_BO_TRANSFER_READ GBM_BO_TRANSFER_WRITE
               else GBM_BO_TRANSFER_READ in
  let r := gbm_bo_map (trace m) (bo b) 0 0
             (to_u32 (int_add x w)) (to_u32 (int_add y h)) flags in
  trace (snd (gralloc_gbm_bo_lock req x y w h m))
  = GbmBoMap (bo b) 0 0 (to_u32 (int_add x w)) (to_u32 (int_add y h)) flags
      :: trace m
  /\ fst (gralloc_gbm_bo_lock req x y w h m)
     = if reply_addr r =? 0 then (- ENOMEM, Some 0)
       else (0, Some (reply_addr r)).
Proof.
  intros H Hc Hmap Hp Hu Hf.
  pose proof (lock_maps_exact req x y w h m _ _ H Hp
                (lock_compatible_unlocked b req Hc) Hu Hmap) as E.
  unfold gbm_map_geometry in E.
  destruct (Z.eqb_spec (format gbm_handle) HAL_PIXEL_FORMAT_YV12) as [E'|_];
    [contradiction|].
  cbn [fst snd] in E. cbn zeta in *. rewrite E.
  now destruct (reply_addr _ =? 0).
Qed.

(** X11.  When such a lock has succeeded, Unlock hands [gbm_bo_unmap] the
    token that [gbm_bo_map] stored, and leaves the object unmapped, with
    count zero and no usage granted. *)
Theorem unlock_returns_token (req x y w h : Z) (m : machine)
    (gbm_handle : gralloc_gbm_handle_t) (b : gralloc_gbm_bo_t) :
  resolves m gbm_handle b ->
  lock_count b = 0 -> map_data b = 0 ->
  lock_permitted (usage gbm_handle) req = true ->
  cpu_intent (Z.lor req (locked_for b)) = true ->
  fst (fst (gralloc_gbm_bo_lock req x y w h m)) = 0 ->
  exists call token,
    trace (snd (gralloc_gbm_bo_lock req x y w h m)) = call :: trace m
    /\ (exists b1,
          resolves (snd (gralloc_gbm_bo_lock req x y w h m))
                   (set_data gbm_handle (Some b1)) b1
          /\ map_data b1 = token)
    /\ gralloc_gbm_bo_unlock (snd (gralloc_gbm_bo_lock req x y w h m))
       = (0, store_bo m gbm_handle (mk_bo (bo b) 0 0 0)
               (GbmBoUnmap (bo b) token :: call :: trace m)).
Proof.
  intros H Hc Hmap Hp Hu.
  pose proof (lock_maps_exact req x y w h m _ _ H Hp
                (lock_compatible_unlocked b req Hc) Hu Hmap) as E.
  cbn zeta in E. rewrite E.
  destruct (reply_addr _ =? 0); [discriminate|]. intros _.
  cbn [fst snd]. do 2 eexists. split; [reflexivity|]. split.
  - eexists. split; [eapply resolves_store_bo; exact H | reflexivity].
  - erewrite unlock_locked;
      [| eapply resolves_store_bo; exact H | rewrite Hc; now cbn].
    cbn [lock_count locked_for bo map_data]. rewrite Hc.
    change (int_sub (int_add 0 1) 1) with 0. cbn [Z.eqb].
    unfold cpu_intent in *. rewrite lor_lor_same, Hu.
    now rewrite store_bo_store_bo.
Qed.

(** The four ways a lock on a fresh object can go, and the unlock after. *)
Lemma pair_restores (o : lock_op) (m : machine)
    (gbm_handle : gralloc_gbm_handle_t) (b : gralloc_gbm_bo_t) :
  map_contract -> resolves m gbm_handle b -> fresh_bo b ->
  exists tr,
    run [o; Unlock] m = store_bo m gbm_handle (mk_bo (bo b) 0 0 0) tr.
Proof.
  intros Hct H Hfresh. pose proof Hfresh as (Hmap & Hc & Hl).
  pose proof (store_bo_same _ _ _ H) as Hsame.
  rewrite (fresh_bo_eq b Hfresh) in Hsame at 1.
  assert (Hidle : gralloc_gbm_bo_unlock m = (0, m))
    by exact (unlock_idle _ _ _ H Hc).
  cbn [run]. rewrite !lock_call_snd.
  destruct o as [req x y w h|].
  2:{ rewrite Hidle. cbn [snd]. rewrite Hidle. exists (trace m).
      now rewrite Hsame. }
  destruct (lock_permitted (usage gbm_handle) req) eqn:Hp.
  2:{ rewrite (lock_not_permitted _ _ _ _ _ _ _ _ H Hp). cbn [snd].
      rewrite Hidle. exists (trace m). now rewrite Hsame. }
  pose proof (lock_compatible_unlocked b req Hc) as Hcomp.
  destruct (cpu_intent (Z.lor req (locked_for b))) eqn:Hu.
  - pose proof (lock_maps_exact req x y w h m _ _ H Hp Hcomp Hu Hmap) as E.
    cbn zeta in E. rewrite E.
    match goal with
    | |- context [reply_addr (gbm_bo_map ?t ?p ?a ?c ?ex ?ey ?fl)] =>
        pose proof (Hct t p a c ex ey fl) as Hr;
        destruct (Z.eqb_spec (reply_addr (gbm_bo_map t p a c ex ey fl)) 0)
          as [Ha|Ha]
    end; cbn [snd].
    + erewrite unlock_idle;
        [| eapply resolves_store_bo; exact H | exact Hc].
      eexists. cbn [snd]. f_equal.
      unfold set_map_data. rewrite (proj1 Hr Ha), Hc, Hl. reflexivity.
    + erewrite unlock_locked;
        [| eapply resolves_store_bo; exact H | rewrite Hc; now cbn].
      cbn [lock_count locked_for bo map_data snd]. rewrite Hc.
      change (int_sub (int_add 0 1) 1) with 0. cbn [Z.eqb].
      unfold cpu_intent in *. rewrite lor_lor_same, Hu.
      rewrite store_bo_store_bo. eexists. reflexivity.
  - rewrite (lock_without_cpu_intent _ _ _ _ _ _ _ _ H Hp Hcomp Hu). cbn [snd].
    erewrite unlock_locked;
      [| eapply resolves_store_bo; exact H | rewrite Hc; now cbn].
    cbn [lock_count locked_for bo map_data snd]. rewrite Hc, Hmap.
    change (int_sub (int_add 0 1) 1) with 0. cbn [Z.eqb].
    unfold cpu_intent in *. rewrite lor_lor_same, Hu.
    rewrite store_bo_store_bo. eexists. reflexivity.
Qed.

Lemma run_app (ops1 ops2 : list lock_op) (m : machine) :
  run (ops1 ++ ops2) m = run ops2 (run ops1 m).
Proof.
  revert m. induction ops1 as [|o ops1 IH]; intros m; [reflexivity|].
  cbn [app run]. apply IH.
Qed.

(** X12.  From an object that is not locked, every sequence in which each
    Lock or Unlock call, failed or not, is followed by an Unlock ends with
    the object unmapped, with count zero and no usage granted, behind the
    same handle and the same backend object. *)
Theorem lock_unlock_pairs (os : list lock_op) (m : machine)
    (gbm_handle : gralloc_gbm_handle_t) (b : gralloc_gbm_bo_t) :
  map_contract -> resolves m gbm_handle b -> fresh_bo b ->
  exists tr,
    run (flat_map (fun o => [o; Unlock]) os) m
    = store_bo m gbm_handle (mk_bo (bo b) 0 0 0) tr.
Proof.
  intros Hct. revert m gbm_handle b.
  induction os as [|o os IH]; intros m g b H Hfresh.
  - exists (trace m). cbn [flat_map run].
    pose proof (store_bo_same _ _ _ H) as Hsame.
    now rewrite (fresh_bo_eq b Hfresh) in Hsame at 1.
  - cbn [flat_map]. rewrite run_app.
    destruct (pair_restores o m g b Hct H Hfresh) as (tr1 & ->).
    destruct (IH (store_bo m g (mk_bo (bo b) 0 0 0) tr1)
                 (set_data g (Some (mk_bo (bo b) 0 0 0)))
                 (mk_bo (bo b) 0 0 0)) as (tr2 & ->).
    + eapply resolves_store_bo; exact H.
    + now repeat split.
    + exists tr2. now rewrite store_bo_store_bo.
Qed.

End LockSequences.

Section Permission.

Context {P : Platform} {B : GbmBackend}.

(** ** The permission test *)

Lemma test_lor_r (a m1 m2 : Z) :
  test a (Z.lor m1 m2) = test a m1 || test a m2.
Proof.
  unfold test. rewrite Z.land_lor_distr_r.
  destruct (Z.eqb_spec (Z.land a m1) 0) as [H1|H1];
    destruct (Z.eqb_spec (Z.land a m2) 0) as [H2|H2];
    destruct (Z.eqb_spec (Z.lor (Z.land a m1) (Z.land a m2)) 0) as [H12|H12];
    try reflexivity; exfalso.
  - apply H12. now rewrite H1, H2.
  - apply Z.lor_eq_0_iff in H12. tauto.
  - apply Z.lor_eq_0_iff in H12. tauto.
  - apply Z.lor_eq_0_iff in H12. tauto.
Qed.

Lemma waived_bits (created : Z) :
  waived created = true <-> Z.land created WAIVER_BITS <> 0.
Proof.
  unfold waived, WAIVER_BITS. rewrite <- !test_lor_r. unfold test.
  destruct (Z.eqb_spec
              (Z.land created
                 (Z.lor (Z.lor GRALLOC_USAGE_SW_READ_OFTEN GRALLOC_USAGE_HW_FB)
                        GRALLOC_USAGE_HW_TEXTURE)) 0); cbn [negb];
    split; congruence.
Qed.

(** C6, as the code has it.  A request with a bit the handle was not
    created with fails with [-EINVAL], nothing changed, unless the creation
    usage has at least one bit of SW_READ_OFTEN (SW_READ_RARELY is such a
    bit), of HW_FB or of HW_TEXTURE.  With such a bit the subset test is
    waived for every request, those with a CPU intent too: Lock gives what
    the compatibility test and the mapping step give, whether the request
    is within the creation usage or not. *)
Theorem lock_permission (m : machine) (req x y w h : Z) :
  (forall gbm_handle,
     gralloc_gbm_handle (mem m) = Some gbm_handle ->
     ~ subset req (usage gbm_handle) ->
     Z.land (usage gbm_handle) WAIVER_BITS = 0 ->
     gralloc_gbm_bo_lock req x y w h m = (- EINVAL, None, m))
  /\ (forall gbm_handle b,
       resolves m gbm_handle b ->
       Z.land (usage gbm_handle) WAIVER_BITS <> 0 ->
       let u := Z.lor req (locked_for b) in
       let ex := to_u32 (int_add x (fst (gbm_map_geometry gbm_handle w h))) in
       let ey := to_u32 (int_add y (snd (gbm_map_geometry gbm_handle w h))) in
       let flags := if test u GRALLOC_USAGE_SW_WRITE_MASK
                    then Z.lor GBM_BO_TRANSFER_READ GBM_BO_TRANSFER_WRITE
                    else GBM_BO_TRANSFER_READ in
       let r := gbm_bo_map (trace m) (bo b) 0 0 ex ey flags in
       let tr := GbmBoMap (bo b) 0 0 ex ey flags :: trace m in
       gralloc_gbm_bo_lock req x y w h m
       = if negb (lock_count b =? 0)
            && negb (Z.land (locked_for b) req =? req)
         then (- EINVAL, None, m)
         else if Z.land u SW_ACCESS_MASK =? 0
         then (0, None,
               store_bo m gbm_handle
                 (mk_bo (bo b) (map_data b) (int_add (lock_count b) 1)
                        (Z.lor (locked_for b) u))
                 (trace m))
         else if negb (map_data b =? 0) then (- EINVAL, None, m)
         else if reply_addr r =? 0
         then (- ENOMEM, Some 0,
               store_bo m gbm_handle (set_map_data b (reply_map_data r)) tr)
         else (0, Some (reply_addr r),
               store_bo m gbm_handle
                 (mk_bo (bo b) (reply_map_data r) (int_add (lock_count b) 1)
                        (Z.lor (locked_for b) u))
                 tr)).
Proof.
  split.
  - intros g Hh Hs Hw.
    destruct (resolves_or_not m) as [(g' & b & H)|Hn].
    2:{ exact (lock_unresolved _ _ _ _ _ _ Hn). }
    assert (g' = g) by (destruct H as [Hh' _]; congruence). subst g'.
    apply (lock_not_permitted _ _ _ _ _ _ _ _ H).
    destruct (lock_permitted (usage g) req) eqn:Hp; [|reflexivity].
    apply lock_permitted_spec in Hp. destruct Hp as [Hp|Hp];
      [contradiction | now apply waived_bits in Hp].
  - intros g b H Hw. cbn zeta.
    assert (Hp : lock_permitted (usage g) req = true)
      by (apply lock_permitted_spec; right; now apply waived_bits).
    destruct (lock_compatible b req) eqn:Hc.
    2:{ rewrite (lock_not_compatible _ _ _ _ _ _ _ _ H Hc).
        unfold lock_compatible in Hc. apply negb_false_iff in Hc.
        now rewrite Hc. }
    pose proof Hc as Hc'. unfold lock_compatible in Hc'.
    apply negb_true_iff in Hc'. rewrite Hc'.
    destruct (cpu_intent (Z.lor req (locked_for b))) eqn:Hu.
    2:{ rewrite (lock_without_cpu_intent _ _ _ _ _ _ _ _ H Hp Hc Hu).
        unfold cpu_intent, test in Hu. apply negb_false_iff in Hu.
        now rewrite Hu. }
    pose proof Hu as Hu'. unfold cpu_intent, test in Hu'.
    apply negb_true_iff in Hu'. rewrite Hu'.
    destruct (Z.eqb_spec (map_data b) 0) as [Hm|Hm]; cbn [negb].
    + exact (lock_maps_exact req x y w h m g b H Hp Hc Hu Hm).
    + exact (lock_already_mapped _ _ _ _ _ _ _ _ H Hu Hm).
Qed.

End Permission.

Section NestedLocks.

Context {P : Platform} {B : GbmBackend}.

(** ** Locks without a mapping *)

Lemma locked_times_lock (req x y w h k : Z) (m : machine)
    (g : gralloc_gbm_handle_t) (b : gralloc_gbm_bo_t) (tr : list gbm_call) :
  resolves m g b ->
  lock_permitted (usage g) req = true -> cpu_intent req = false ->
  0 <= k < INT_MAX ->
  gralloc_gbm_bo_lock req x y w h (store_bo m g (locked_times b k req) tr)
  = (0, None, store_bo m g (locked_times b (k + 1) req) tr).
Proof.
  intros H Hp Hu Hk.
  pose proof (resolves_store_bo m g b (locked_times b k req) tr H) as Hk'.
  assert (Hlf : Z.lor req (locked_for (locked_times b k req)) = req).
  { cbn. destruct (k =? 0); [apply Z.lor_0_r | apply Z.lor_diag]. }
  rewrite (lock_without_cpu_intent _ _ _ _ _ _ _ _ Hk').
  - rewrite store_bo_store_bo, lor_lor_same, Hlf. cbn [bo map_data lock_count
      locked_times trace store_bo].
    unfold int_add. rewrite to_int_small by int_range.
    unfold locked_times.
    now destruct (Z.eqb_spec (k + 1) 0); [lia|].
  - exact Hp.
  - unfold lock_compatible. cbn.
    destruct (k =? 0); [reflexivity|].
    now rewrite Z.land_diag, Z.eqb_refl.
  - now rewrite Hlf.
Qed.

Lemma locked_times_unlock (req k : Z) (m : machine)
    (g : gralloc_gbm_handle_t) (b : gralloc_gbm_bo_t) (tr : list gbm_call) :
  resolves m g b -> cpu_intent req = false -> 0 <= k < INT_MAX ->
  gralloc_gbm_bo_unlock (store_bo m g (locked_times b (k + 1) req) tr)
  = (0, store_bo m g (locked_times b k req) tr).
Proof.
  intros H Hu Hk.
  pose proof (resolves_store_bo m g b (locked_times b (k + 1) req) tr H) as Hk'.
  rewrite (unlock_locked _ _ _ Hk') by (cbn; lia).
  cbn [locked_times lock_count locked_for bo map_data].
  destruct (Z.eqb_spec (k + 1) 0); [lia|]. rewrite Hu.
  unfold int_sub. rewrite to_int_small by int_range.
  replace (k + 1 - 1) with k by lia.
  now rewrite store_bo_store_bo.
Qed.

Lemma run_locks (n : nat) (req x y w h k : Z) (m : machine)
    (g : gralloc_gbm_handle_t) (b : gralloc_gbm_bo_t) (tr : list gbm_call) :
  resolves m g b ->
  lock_permitted (usage g) req = true -> cpu_intent req = false ->
  0 <= k -> k + Z.of_nat n <= INT_MAX ->
  run (repeat (Lock req x y w h) n) (store_bo m g (locked_times b k req) tr)
  = store_bo m g (locked_times b (k + Z.of_nat n) req) tr.
Proof.
  intros H Hp Hu. revert k.
  induction n as [|n IH]; intros k Hk Hn.
  - cbn [repeat run]. now rewrite Z.add_0_r.
  - cbn [repeat run]. rewrite lock_call_snd.
    rewrite locked_times_lock by (auto; lia). cbn [snd].
    rewrite IH by lia. f_equal. f_equal. lia.
Qed.

Lemma run_unlocks (n : nat) (req k : Z) (m : machine)
    (g : gralloc_gbm_handle_t) (b : gralloc_gbm_bo_t) (tr : list gbm_call) :
  resolves m g b -> cpu_intent req = false ->
  0 <= k -> k + Z.of_nat n <= INT_MAX ->
  run (repeat Unlock n) (store_bo m g (locked_times b (k + Z.of_nat n) req) tr)
  = store_bo m g (locked_times b k req) tr.
Proof.
  intros H Hu. revert k.
  induction n as [|n IH]; intros k Hk Hn.
  - cbn [repeat run]. now rewrite Z.add_0_r.
  - cbn [repeat run]. rewrite lock_call_snd.
    replace (k + Z.of_nat (S n)) with ((k + Z.of_nat n) + 1) by lia.
    rewrite locked_times_unlock by (auto; lia). cbn [snd].
    apply IH; lia.
Qed.

(** X13.  Locks that need no mapping nest.  On an object that is not
    locked, [n] locks with one permitted usage without CPU intent all
    succeed, make no backend call and leave the count at [n] with that
    usage granted; [n] unlocks after them bring the machine back to where
    it was.  [n] is a number an [int] can hold. *)
Theorem hw_locks_nest (n : nat) (req x y w h : Z) (m : machine)
    (gbm_handle : gralloc_gbm_handle_t) (b : gralloc_gbm_bo_t) :
  resolves m gbm_handle b -> fresh_bo b ->
  lock_permitted (usage gbm_handle) req = true -> cpu_intent req = false ->
  Z.of_nat n <= INT_MAX ->
  run (repeat (Lock req x y w h) n) m
  = store_bo m gbm_handle (locked_times b (Z.of_nat n) req) (trace m)
  /\ run (repeat (Lock req x y w h) n ++ repeat Unlock n) m = m.
Proof.
  intros H Hfresh Hp Hu Hn.
  assert (H0 : store_bo m gbm_handle (locked_times b 0 req) (trace m) = m).
  { pose proof (store_bo_same _ _ _ H) as Hsame.
    now rewrite (fresh_bo_eq b Hfresh) in Hsame at 1. }
  assert (Hlocks : run (repeat (Lock req x y w h) n) m
                   = store_bo m gbm_handle (locked_times b (Z.of_nat n) req)
                       (trace m)).
  { rewrite <- H0 at 1. now rewrite run_locks by (auto; lia). }
  split; [exact Hlocks|].
  rewrite run_app, Hlocks.
  replace (Z.of_nat n) with (0 + Z.of_nat n) by lia.
  rewrite run_unlocks by (auto; lia). exact H0.
Qed.

(** ** Handles that do not resolve *)

(** X14.  Lock and Unlock fail with [-EINVAL] and change nothing, backend
    untouched, on a [NULL] handle, on a handle whose magic, size tag or
    element counts are not those of this module, on a handle whose owner
    is not what [getpid()] returns, and on a handle with a null data
    reference. *)
Theorem unresolved_calls_fail (req x y w h : Z) (m : machine) :
  (mem m = None
   \/ exists handle,
        mem m = Some handle
        /\ (magic handle <> GRALLOC_GBM_HANDLE_MAGIC
            \/ version (base handle) <> sizeof_native_handle_t
            \/ numInts (base handle) <> GRALLOC_GBM_HANDLE_NUM_INTS
            \/ numFds (base handle) <> GRALLOC_GBM_HANDLE_NUM_FDS
            \/ data_owner handle <> getpid
            \/ data handle = None)) ->
  gralloc_gbm_bo_lock req x y w h m = (- EINVAL, None, m)
  /\ gralloc_gbm_bo_unlock m = (- EINVAL, m).
Proof.
  intros Hbad.
  assert (Hnone : gralloc_gbm_bo_from_handle (mem m) = None).
  { unfold gralloc_gbm_bo_from_handle, gralloc_gbm_handle.
    destruct Hbad as [->|(handle & -> & Hbad)]; [reflexivity|].
    destruct (Z.eqb_spec (version (base handle)) sizeof_native_handle_t),
      (Z.eqb_spec (numInts (base handle)) GRALLOC_GBM_HANDLE_NUM_INTS),
      (Z.eqb_spec (numFds (base handle)) GRALLOC_GBM_HANDLE_NUM_FDS),
      (Z.eqb_spec (magic handle) GRALLOC_GBM_HANDLE_MAGIC);
      cbn [andb]; try reflexivity.
    destruct (Z.eqb_spec (data_owner handle) getpid); [|reflexivity].
    intuition congruence. }
  split; [exact (lock_unresolved _ _ _ _ _ _ Hnone)
         | exact (unlock_unresolved _ Hnone)].
Qed.

(** ** What every reachable lock state has *)

Lemma lock_call_frame (o : lock_op) (m : machine)
    (g : gralloc_gbm_handle_t) (b : gralloc_gbm_bo_t) :
  resolves m g b ->
  exists b' tr,
    snd (lock_call o m) = store_bo m g b' tr /\ bo b' = bo b.
Proof.
  intros H. pose proof (store_bo_same _ _ _ H) as Hsame.
  assert (Hstay : exists b' tr, m = store_bo m g b' tr /\ bo b' = bo b)
    by (exists b, (trace m); now rewrite Hsame).
  rewrite lock_call_snd. destruct o as [req x y w h|].
  - destruct (lock_permitted (usage g) req) eqn:Hp.
    2:{ now rewrite (lock_not_permitted _ _ _ _ _ _ _ _ H Hp). }
    destruct (lock_compatible b req) eqn:Hc.
    2:{ now rewrite (lock_not_compatible _ _ _ _ _ _ _ _ H Hc). }
    destruct (cpu_intent (Z.lor req (locked_for b))) eqn:Hu.
    2:{ rewrite (lock_without_cpu_intent _ _ _ _ _ _ _ _ H Hp Hc Hu).
        cbn [snd]. now do 2 eexists. }
    destruct (Z.eq_dec (map_data b) 0) as [Hm|Hm].
    2:{ now rewrite (lock_already_mapped _ _ _ _ _ _ _ _ H Hu Hm). }
    pose proof (lock_maps_exact req x y w h m _ _ H Hp Hc Hu Hm) as E.
    cbn zeta in E. rewrite E.
    destruct (reply_addr _ =? 0); cbn [snd]; now do 2 eexists.
  - destruct (Z.eq_dec (lock_count b) 0) as [Hc|Hc].
    { now rewrite (unlock_idle _ _ _ H Hc). }
    rewrite (unlock_locked _ _ _ H Hc). cbn [snd].
    destruct (cpu_intent (locked_for b)); now do 2 eexists.
Qed.

(** X15.  Lock and Unlock change nothing of the machine but the lock state
    of the object and the backend trace: after any sequence of them the
    handle has its shape, usage, file descriptor and owner, the object its
    backend object, and the memoised pid is what it was; a handle that
    resolved still resolves. *)
Theorem lock_unlock_frame (ops : list lock_op) (m : machine)
    (gbm_handle : gralloc_gbm_handle_t) (b : gralloc_gbm_bo_t) :
  resolves m gbm_handle b ->
  exists b' tr,
    run ops m = store_bo m gbm_handle b' tr
    /\ bo b' = bo b
    /\ resolves (run ops m) (set_data gbm_handle (Some b')) b'.
Proof.
  revert m gbm_handle b.
  induction ops as [|o ops IH]; intros m g b H.
  - exists b, (trace m). cbn [run]. rewrite (store_bo_same _ _ _ H).
    split; [reflexivity | split; [reflexivity|]].
    now apply resolves_unchanged.
  - cbn [run].
    destruct (lock_call_frame o m g b H) as (b1 & tr1 & -> & Hb1).
    destruct (IH (store_bo m g b1 tr1) (set_data g (Some b1)) b1)
      as (b2 & tr2 & E & Hb2 & Hres).
    { eapply resolves_store_bo; exact H. }
    exists b2, tr2. rewrite E, store_bo_store_bo in *.
    split; [reflexivity | split; [congruence | exact Hres]].
Qed.

(** X16.  In every state reached from a fresh object by Lock and Unlock
    calls, under the contract of [gbm_bo_map]: a CPU intent is granted
    only while the count is exactly one and the object is mapped, so locks
    with a CPU intent never nest; and whatever is granted is within the
    creation usage of the handle unless that usage waives the test. *)
Theorem reachable_lock_state (ops : list lock_op) (m : machine)
    (gbm_handle : gralloc_gbm_handle_t) (b : gralloc_gbm_bo_t) :
  map_contract -> fresh_machine m ->
  resolves (run ops m) gbm_handle b ->
  (cpu_intent (locked_for b) = true -> lock_count b = 1 /\ map_data b <> 0)
  /\ (map_data b <> 0 -> lock_count b = 1)
  /\ (subset (locked_for b) (usage gbm_handle)
      \/ waived (usage gbm_handle) = true).
Proof.
  intros Hct Hf H.
  destruct (run_preserves_inv ops m Hct (fresh_machine_inv m Hf) _ _ H)
    as [Hshape Hperm].
  split; [|split].
  - intros Hu. destruct Hshape as [[_ Hl]|(Hm & Hc & _)]; [congruence|].
    now split.
  - intros Hm. destruct Hshape as [[Hz _]|(_ & Hc & _)];
      [contradiction | exact Hc].
  - now apply lock_permitted_spec.
Qed.

End NestedLocks.

Section DeviceProperties.

Context {E : DeviceEnv}.

(** ** The device *)

Lemma remove_fresh (fd : Z) (fds : list Z) :
  ~ In fd fds -> remove Z.eq_dec fd (fd :: fds) = fds.
Proof.
  intros Hn. cbn [remove].
  destruct (Z.eq_dec fd fd); [|contradiction].
  now apply notin_remove.
Qed.

Lemma gbm_dev_create_fds (tr : list sys_call) :
  let tr1 := PropertyGet "gralloc.gbm.device" "/dev/dri/renderD128" :: tr in
  let path := property_get tr "gralloc.gbm.device" "/dev/dri/renderD128" in
  let fd := open tr1 path (Z.lor O_RDWR O_CLOEXEC) in
  ~ In fd (open_fds tr) ->
  (fst (gbm_dev_create tr) = 0 ->
   open_fds (snd (gbm_dev_create tr)) = open_fds tr)
  /\ (fst (gbm_dev_create tr) <> 0 ->
      open_fds (snd (gbm_dev_create tr)) = fd :: open_fds tr).
Proof.
  intros tr1 path fd Hnew. unfold gbm_dev_create.
  fold tr1 path. fold fd.
  destruct (Z.ltb_spec fd 0) as [Hneg|Hpos]; cbn [fst snd].
  - split; [|contradiction]. intros _. cbn [open_fds].
    now destruct (Z.ltb_spec fd 0); [|lia].
  - destruct (Z.eqb_spec
                (gbm_create_device
                   (Open path (Z.lor O_RDWR O_CLOEXEC) fd :: tr1) fd) 0)
      as [E0|En]; cbn [fst snd].
    + split; [|congruence]. intros _. cbn [open_fds].
      destruct (Z.ltb_spec fd 0); [lia|]. now apply remove_fresh.
    + split; [contradiction|]. intros _. cbn [open_fds].
      now destruct (Z.ltb_spec fd 0); [lia|].
Qed.

(** X17.  [gbm_dev_create] gives no device exactly when the node cannot be
    opened or GBM creates no device on it.  It looks the path up under
    [gralloc.gbm.device], tries GBM only on an open descriptor, and leaves
    no descriptor open when it gives no device: the one it opened is
    closed again.  When it gives a device that descriptor stays open. *)
Theorem gbm_dev_create_no_leak (tr : list sys_call) :
  let tr1 := PropertyGet "gralloc.gbm.device" "/dev/dri/renderD128" :: tr in
  let path := property_get tr "gralloc.gbm.device" "/dev/dri/renderD128" in
  let fd := open tr1 path (Z.lor O_RDWR O_CLOEXEC) in
  let tr2 := Open path (Z.lor O_RDWR O_CLOEXEC) fd :: tr1 in
  ~ In fd (open_fds tr) ->
  (fst (gbm_dev_create tr) = 0 <-> fd < 0 \/ gbm_create_device tr2 fd = 0)
  /\ (fd < 0 -> snd (gbm_dev_create tr) = tr2)
  /\ (fst (gbm_dev_create tr) = 0 ->
      open_fds (snd (gbm_dev_create tr)) = open_fds tr)
  /\ (fst (gbm_dev_create tr) <> 0 ->
      fst (gbm_dev_create tr) = gbm_create_device tr2 fd
      /\ open_fds (snd (gbm_dev_create tr)) = fd :: open_fds tr).
Proof.
  intros tr1 path fd tr2 Hnew.
  destruct (gbm_dev_create_fds tr Hnew) as [Hclosed Hopen].
  fold tr1 path in Hclosed, Hopen. fold fd in Hopen.
  split; [|split; [|split; [exact Hclosed|]]].
  - unfold gbm_dev_create. fold tr1 path. fold fd. fold tr2.
    destruct (Z.ltb_spec fd 0) as [Hneg|Hpos]; cbn [fst]; [tauto|].
    destruct (Z.eqb_spec (gbm_create_device tr2 fd) 0) as [E0|En]; cbn [fst].
    + tauto.
    + split; [contradiction | intros [Hlt|Hz]; [lia | contradiction]].
  - intros Hneg. unfold gbm_dev_create. fold tr1 path. fold fd. fold tr2.
    now destruct (Z.ltb_spec fd 0); [|lia].
  - intros Hn. split; [|exact (Hopen Hn)].
    revert Hn. unfold gbm_dev_create. fold tr1 path. fold fd. fold tr2.
    destruct (Z.ltb_spec fd 0); cbn [fst]; [contradiction|].
    now destruct (Z.eqb_spec (gbm_create_device tr2 fd) 0).
Qed.

(** X18.  [gbm_dev_destroy] asks the device for its descriptor before it
    destroys the device and closes the descriptor after.  On a device that
    [gbm_dev_create] gave, and that reports the descriptor it was created
    on, no descriptor is left open that was not open before the two. *)
Theorem gbm_dev_create_destroy (tr : list sys_call) (gbm : Z) :
  let tr1 := PropertyGet "gralloc.gbm.device" "/dev/dri/renderD128" :: tr in
  let path := property_get tr "gralloc.gbm.device" "/dev/dri/renderD128" in
  let fd := open tr1 path (Z.lor O_RDWR O_CLOEXEC) in
  fst (gbm_dev_create tr) = gbm -> gbm <> 0 ->
  ~ In fd (open_fds tr) ->
  gbm_device_get_fd (snd (gbm_dev_create tr)) gbm = fd ->
  gbm_dev_destroy gbm (snd (gbm_dev_create tr))
  = Close fd :: GbmDeviceDestroy gbm :: GbmDeviceGetFd gbm
      :: snd (gbm_dev_create tr)
  /\ open_fds (gbm_dev_destroy gbm (snd (gbm_dev_create tr))) = open_fds tr.
Proof.
  intros tr1 path fd Hgbm Hn Hnew Hfd.
  destruct (gbm_dev_create_fds tr Hnew) as [_ Hopen].
  assert (Hdestroy :
            gbm_dev_destroy gbm (snd (gbm_dev_create tr))
            = Close fd :: GbmDeviceDestroy gbm :: GbmDeviceGetFd gbm
                :: snd (gbm_dev_create tr))
    by (unfold gbm_dev_destroy; now rewrite Hfd).
  split; [exact Hdestroy|].
  rewrite Hdestroy. cbn [open_fds].
  rewrite Hopen by (rewrite Hgbm; exact Hn).
  now apply remove_fresh.
Qed.

End DeviceProperties.

Section Ownership.

Context {P : Platform} {B : GbmBackend}.

(** ** The memoised pid and the owner of a handle *)

Lemma validate_handle_pid (gbm : Z) (m : machine) :
  current_pid (snd (validate_handle gbm m)) = current_pid m
  /\ (gralloc_gbm_pid m <> 0 ->
      gralloc_gbm_pid (snd (validate_handle gbm m)) = gralloc_gbm_pid m).
Proof.
  destruct (gralloc_gbm_handle (mem m)) as [handle|] eqn:Hh.
  2:{ now rewrite (validate_handle_invalid gbm m Hh). }
  assert (Hcases :
            exists (hm : option gralloc_gbm_handle_t) (tr : list gbm_call),
              snd (validate_handle gbm m) = mk_machine (current_pid m) hm tr).
  { destruct (Z.eq_dec (data_owner handle) (current_pid m)) as [Ho|Ho].
    - rewrite (validate_handle_owned gbm m handle Hh Ho). now do 2 eexists.
    - destruct (Z.eq_dec gbm 0) as [->|Hg].
      + rewrite (validate_handle_check_only m handle Hh Ho). now do 2 eexists.
      + rewrite (validate_handle_imports gbm m handle Hh Ho Hg).
        now do 2 eexists. }
  destruct Hcases as (hm & tr & ->). cbn [snd gralloc_gbm_pid].
  split; [apply current_pid_memoised | apply current_pid_set].
Qed.

Lemma registry_call_pid (o : registry_op) (m : machine) :
  current_pid (snd (registry_call o m)) = current_pid m
  /\ (gralloc_gbm_pid m <> 0 ->
      gralloc_gbm_pid (snd (registry_call o m)) = gralloc_gbm_pid m).
Proof.
  destruct o as [gbm|gbm|]; cbn [registry_call].
  - pose proof (validate_handle_pid gbm m) as Hv.
    now destruct (validate_handle gbm m) as [b m'].
  - unfold gralloc_gbm_handle_register.
    pose proof (validate_handle_pid gbm m) as Hv.
    now destruct (validate_handle gbm m) as [b m'].
  - unfold gralloc_gbm_handle_unregister.
    pose proof (validate_handle_pid 0 m) as Hv.
    destruct (validate_handle 0 m) as [[b|] m']; cbn [snd] in *; [|exact Hv].
    destruct Hv as [Hcur Hset]. split; [|exact Hset].
    rewrite <- Hcur. unfold current_pid, gralloc_gbm_get_pid.
    cbn [gralloc_gbm_pid]. now destruct (gralloc_gbm_pid m' =? 0).
Qed.

(** X19.  The process identity is memoised once: no sequence of Resolve,
    Register and Unregister calls changes the pid that owners are compared
    with, and once [gralloc_gbm_pid] is set it is never written again. *)
Theorem pid_memoised_once (ops : list registry_op) (m : machine) :
  current_pid (snd (registry_run ops m)) = current_pid m
  /\ (gralloc_gbm_pid m <> 0 ->
      gralloc_gbm_pid (snd (registry_run ops m)) = gralloc_gbm_pid m).
Proof.
  revert m. induction ops as [|o ops IH]; intros m; [now split|].
  cbn [registry_run].
  pose proof (registry_call_pid o m) as [Hcur Hset].
  destruct (registry_call o m) as [r m1]. cbn [snd] in *.
  specialize (IH m1). destruct (registry_run ops m1) as [rs m2].
  cbn [snd] in *. destruct IH as [IHcur IHset].
  split; [congruence|]. intros Hn.
  rewrite IHset; [now apply Hset|]. rewrite (Hset Hn). exact Hn.
Qed.

(** X20.  A handle that was unregistered can be registered again: in a
    process with a pid other than zero, Register with a backend context on
    the handle that Unregister has cleared imports it anew, after the
    destroy call, and succeeds when the import does. *)
Theorem register_after_unregister (gbm : Z) (m : machine)
    (handle : gralloc_gbm_handle_t) (b b2 : gralloc_gbm_bo_t) :
  gralloc_gbm_handle (mem m) = Some handle ->
  data_owner handle = current_pid m -> data handle = Some b ->
  current_pid m <> 0 -> gbm <> 0 ->
  fst (gbm_import gbm (set_data (set_data_owner handle 0) None)
         (GbmBoDestroy (bo b) :: trace m)) = Some b2 ->
  exists d,
    gralloc_gbm_handle_register gbm (snd (gralloc_gbm_handle_unregister m))
    = (0, mk_machine (current_pid m)
            (Some (set_data (set_data_owner handle (current_pid m))
                            (Some b2)))
            (GbmBoImport gbm GBM_BO_IMPORT_FD_MODIFIER d
               :: GbmBoDestroy (bo b) :: trace m))
    /\ fresh_bo b2.
Proof.
  intros Hh Ho Hd Hpid Hg Himp.
  assert (Hun : gralloc_gbm_handle_unregister m
                = (0, mk_machine (current_pid m)
                        (Some (set_data (set_data_owner handle 0) None))
                        (GbmBoDestroy (bo b) :: trace m))).
  { unfold gralloc_gbm_handle_unregister.
    rewrite (validate_handle_owned 0 m handle Hh Ho), Hd.
    cbn [gralloc_gbm_pid mem trace gbm_free].
    now rewrite (gralloc_gbm_handle_mem _ _ Hh). }
  assert (Hv : gralloc_gbm_handle
                 (Some (set_data (set_data_owner handle 0) None))
               = Some (set_data (set_data_owner handle 0) None)).
  { apply gralloc_gbm_handle_mem in Hh as Hm. rewrite Hm in Hh.
    eapply gralloc_gbm_handle_set_data.
    eapply gralloc_gbm_handle_set_data_owner. exact Hh. }
  destruct (gbm_import_success _ _ _ _ Himp) as (d & Htr & _).
  exists d. split; [|exact (gbm_import_fresh _ _ _ _ Himp)].
  rewrite Hun. cbn [snd]. unfold gralloc_gbm_handle_register.
  erewrite validate_handle_imports; [| exact Hv | | exact Hg].
  - cbn [trace]. rewrite Himp, Htr, current_pid_memoised. reflexivity.
  - cbn [set_data set_data_owner data_owner].
    rewrite current_pid_memoised. congruence.
Qed.

End Ownership.

(** * Further concrete runs *)

Lemma create_then_resolve_witness :
  @validate_handle sample_platform working_backend 0 render_target
  = (Some (mk_bo 0x5000 0 0 0), render_target).
Proof.
  edestruct (@create_then_resolve sample_platform working_backend gbm_device
               0 640 480 HAL_PIXEL_FORMAT_RGBA_8888 GRALLOC_USAGE_HW_RENDER
               boot)
    as (_ & _ & _ & _ & b & Hdata & _ & Hvalidate & _); [reflexivity|].
  cbn in Hdata. injection Hdata as <-. exact Hvalidate.
Defined.

Lemma stale_pid_cannot_lock_witness :
  fst (fst (@gralloc_gbm_bo_lock sample_platform working_backend
              GRALLOC_USAGE_HW_RENDER 0 0 640 480
              (snd (@gralloc_gbm_bo_create sample_platform working_backend
                      gbm_device 640 480 HAL_PIXEL_FORMAT_RGBA_8888
                      GRALLOC_USAGE_HW_RENDER forked))))
  = - EINVAL.
Proof.
  edestruct (@stale_pid_cannot_lock sample_platform working_backend gbm_device
               0 640 480 HAL_PIXEL_FORMAT_RGBA_8888 GRALLOC_USAGE_HW_RENDER
               GRALLOC_USAGE_HW_RENDER 0 0 640 480 forked)
    as (_ & _ & Hlock & _); [reflexivity | discriminate | discriminate |].
  rewrite Hlock. reflexivity.
Defined.

Lemma register_imports_once_witness :
  @gralloc_gbm_handle_register sample_platform working_backend 0 registered
  = (0, registered).
Proof.
  destruct (@register_imports_once sample_platform working_backend gbm_device
              0 (received 5) (received_handle 5) (mk_bo 0x6000 0 0 0))
    as (_ & _ & _ & _ & Hagain);
    [reflexivity | discriminate | discriminate | reflexivity |].
  exact Hagain.
Defined.

Lemma unregister_once_witness :
  fst (@gralloc_gbm_handle_unregister sample_platform working_backend
         render_target) = 0
  /\ trace (snd (@gralloc_gbm_handle_unregister sample_platform
                   working_backend render_target))
     = GbmBoDestroy 0x5000 :: trace render_target.
Proof.
  edestruct (@unregister_once sample_platform working_backend render_target)
    as [Hfirst _]; [reflexivity | reflexivity | reflexivity |].
  rewrite Hfirst. split; reflexivity.
Defined.

Lemma export_import_round_trip_witness :
  exists W H F U later d,
    snd (@gbm_alloc sample_platform working_backend gbm_device
           (@create_bo_handle sample_platform 640 480 HAL_PIXEL_FORMAT_YV12
              GRALLOC_USAGE_SW_WRITE_OFTEN) [])
    = later ++ [GbmBoCreate gbm_device W H F U]
    /\ snd (@gbm_import sample_platform refusing_backend gbm_device
              (snd (fst (@gbm_alloc sample_platform working_backend gbm_device
                           (@create_bo_handle sample_platform 640 480
                              HAL_PIXEL_FORMAT_YV12
                              GRALLOC_USAGE_SW_WRITE_OFTEN) []))) [])
       = [GbmBoImport gbm_device true d]
    /\ (imp_width d, imp_height d, imp_format d) = (W, H, F)
    /\ imp_fd d = 7
    /\ imp_stride d = 2560.
Proof.
  destruct (@export_import_round_trip sample_platform working_backend
              gbm_device gbm_device
              (@create_bo_handle sample_platform 640 480 HAL_PIXEL_FORMAT_YV12
                 GRALLOC_USAGE_SW_WRITE_OFTEN) [] [] (mk_bo 0x5000 0 0 0))
    as (W & H & F & U & later & d & Ha & Hi & Hg & Hfd & Hst);
    [cbn; unfold INT_MAX; lia | cbn; unfold INT_MAX; lia | reflexivity
    | cbn; lia |].
  exists W, H, F, U, later, d.
  split; [exact Ha | split; [exact Hi | split; [exact Hg | split]]].
  - rewrite Hfd. reflexivity.
  - destruct Hst as [_ Hfits]. apply Hfits. cbn. unfold INT_MAX. lia.
Defined.

Lemma cpu_lock_maps_witness :
  trace locked_once
  = GbmBoMap 0x5000 0 0 640 480 GBM_BO_TRANSFER_READ
      :: trace (created HAL_PIXEL_FORMAT_RGBA_8888 GRALLOC_USAGE_SW_READ_OFTEN)
  /\ fst (@gralloc_gbm_bo_lock sample_platform working_backend
            GRALLOC_USAGE_SW_READ_OFTEN 0 0 640 480
            (created HAL_PIXEL_FORMAT_RGBA_8888 GRALLOC_USAGE_SW_READ_OFTEN))
     = (0, Some 0x7f000000).
Proof.
  edestruct (@cpu_lock_maps sample_platform working_backend
               GRALLOC_USAGE_SW_READ_OFTEN 0 0 640 480
               (created HAL_PIXEL_FORMAT_RGBA_8888 GRALLOC_USAGE_SW_READ_OFTEN))
    as [Htrace Hret];
    [ split; reflexivity | reflexivity | reflexivity | reflexivity
    | reflexivity | discriminate | ].
  split; [exact Htrace | exact Hret].
Defined.

Lemma unlock_returns_token_witness :
  fst (@gralloc_gbm_bo_unlock sample_platform locked_once) = 0.
Proof.
  edestruct (@unlock_returns_token sample_platform working_backend
               GRALLOC_USAGE_SW_READ_OFTEN 0 0 640 480
               (created HAL_PIXEL_FORMAT_RGBA_8888 GRALLOC_USAGE_SW_READ_OFTEN))
    as (call & token & _ & _ & Hunlock);
    [ split; reflexivity | reflexivity | reflexivity | reflexivity
    | reflexivity | reflexivity | ].
  unfold locked_once. rewrite Hunlock. reflexivity.
Defined.

Lemma lock_unlock_pairs_witness :
  exists tr,
    @run sample_platform working_backend
      (flat_map (fun o => [o; Unlock])
         [Lock GRALLOC_USAGE_SW_READ_OFTEN 0 0 640 480;
          Lock GRALLOC_USAGE_HW_TEXTURE 0 0 640 480; Unlock])
      (created HAL_PIXEL_FORMAT_RGBA_8888 GRALLOC_USAGE_SW_READ_OFTEN)
    = mk_machine 1234
        (mem (created HAL_PIXEL_FORMAT_RGBA_8888 GRALLOC_USAGE_SW_READ_OFTEN))
        tr.
Proof.
  edestruct (@lock_unlock_pairs sample_platform working_backend
               [Lock GRALLOC_USAGE_SW_READ_OFTEN 0 0 640 480;
                Lock GRALLOC_USAGE_HW_TEXTURE 0 0 640 480; Unlock]
               (created HAL_PIXEL_FORMAT_RGBA_8888 GRALLOC_USAGE_SW_READ_OFTEN))
    as (tr & Hrun);
    [ exact working_backend_contract | split; reflexivity
    | split; [reflexivity | split; reflexivity] | ].
  exists tr. rewrite Hrun. reflexivity.
Defined.

Lemma hw_locks_nest_witness :
  @run sample_platform working_backend
    (repeat (Lock GRALLOC_USAGE_HW_RENDER 0 0 640 480) 3 ++ repeat Unlock 3)
    render_target
  = render_target.
Proof.
  edestruct (@hw_locks_nest sample_platform working_backend 3
               GRALLOC_USAGE_HW_RENDER 0 0 640 480 render_target)
    as [_ Hback];
    [ split; reflexivity | split; [reflexivity | split; reflexivity]
    | reflexivity | reflexivity | cbn; unfold INT_MAX; lia | ].
  exact Hback.
Defined.

Lemma unresolved_calls_fail_witness :
  @gralloc_gbm_bo_lock sample_platform working_backend
    GRALLOC_USAGE_HW_RENDER 0 0 640 480 (received 5)
  = (- EINVAL, None, received 5).
Proof.
  apply (proj1 (@unresolved_calls_fail sample_platform working_backend
                  GRALLOC_USAGE_HW_RENDER 0 0 640 480 (received 5)
                  (or_intror
                     (ex_intro _ (received_handle 5)
                        (conj eq_refl
                           (or_intror (or_intror (or_intror (or_intror
                              (or_intror eq_refl)))))))))).
Defined.

Lemma lock_unlock_frame_witness :
  gralloc_gbm_pid locked_once = 1234.
Proof.
  edestruct (@lock_unlock_frame sample_platform working_backend
               [Lock GRALLOC_USAGE_SW_READ_OFTEN 0 0 640 480]
               (created HAL_PIXEL_FORMAT_RGBA_8888 GRALLOC_USAGE_SW_READ_OFTEN))
    as (b' & tr & Hrun & _); [split; reflexivity|].
  change locked_once
    with (@run sample_platform working_backend
            [Lock GRALLOC_USAGE_SW_READ_OFTEN 0 0 640 480]
            (created HAL_PIXEL_FORMAT_RGBA_8888 GRALLOC_USAGE_SW_READ_OFTEN)).
  rewrite Hrun. reflexivity.
Defined.

Lemma reachable_lock_state_witness :
  lock_count (mk_bo 0x5000 0x8000 1 GRALLOC_USAGE_SW_READ_OFTEN) = 1
  /\ map_data (mk_bo 0x5000 0x8000 1 GRALLOC_USAGE_SW_READ_OFTEN) <> 0.
Proof.
  edestruct (@reachable_lock_state sample_platform working_backend
               [Lock GRALLOC_USAGE_SW_READ_OFTEN 0 0 640 480]
               (created HAL_PIXEL_FORMAT_RGBA_8888 GRALLOC_USAGE_SW_READ_OFTEN))
    as (Hcpu & _ & _);
    [ exact working_backend_contract | exact read_buffer_fresh
    | split; reflexivity | ].
  apply Hcpu. reflexivity.
Defined.

Lemma gbm_dev_create_no_leak_witness :
  fst (@gbm_dev_create refusing_device []) = 0
  /\ open_fds (snd (@gbm_dev_create refusing_device [])) = [].
Proof.
  destruct (@gbm_dev_create_no_leak refusing_device [])
    as (_ & _ & Hclosed & _); [intros []|].
  split; [reflexivity | apply Hclosed; reflexivity].
Defined.

Lemma gbm_dev_create_destroy_witness :
  open_fds (@gbm_dev_destroy sample_device 0x4000
              (snd (@gbm_dev_create sample_device []))) = [].
Proof.
  destruct (@gbm_dev_create_destroy sample_device [] 0x4000) as [_ Hfds];
    [reflexivity | discriminate | intros [] | reflexivity |].
  exact Hfds.
Defined.

Lemma pid_memoised_once_witness :
  gralloc_gbm_pid
    (snd (@registry_run sample_platform working_backend
            [Register gbm_device; Unregister; Resolve gbm_device] forked))
  = 999.
Proof.
  apply (@pid_memoised_once sample_platform working_backend
           [Register gbm_device; Unregister; Resolve gbm_device] forked).
  discriminate.
Defined.

Lemma register_after_unregister_witness :
  exists d,
    @gralloc_gbm_handle_register sample_platform working_backend gbm_device
      (snd (@gralloc_gbm_handle_unregister sample_platform working_backend
              render_target))
    = (0, mk_machine 1234
            (option_map (fun handle => set_data handle (Some (mk_bo 0x6000 0 0 0)))
                        (mem render_target))
            (GbmBoImport gbm_device true d
               :: GbmBoDestroy 0x5000 :: trace render_target)).
Proof.
  edestruct (@register_after_unregister sample_platform working_backend
               gbm_device render_target) as (d & Hreg & _);
    [ reflexivity | reflexivity | reflexivity | discriminate | discriminate
    | reflexivity | ].
  exists d. rewrite Hreg. reflexivity.
Defined.

(** A buffer created for occasional CPU reads does not include
    SW_READ_OFTEN, yet a render lock on it, outside its usage, succeeds. *)
Lemma lock_permission_counterexample :
  ~ @lock_permission_as_stated sample_platform working_backend
      rarely_read_buffer GRALLOC_USAGE_HW_RENDER 0 0 640 480.
Proof.
  intros Hclaim.
  assert (Hret : fst (fst (@gralloc_gbm_bo_lock sample_platform working_backend
                             GRALLOC_USAGE_HW_RENDER 0 0 640 480
                             rarely_read_buffer)) = - EINVAL).
  { eapply Hclaim.
    - split; reflexivity.
    - discriminate.
    - intros [Hr|[Hf|Ht]]; [discriminate Hr | discriminate Hf | discriminate Ht]. }
  vm_compute in Hret. discriminate Hret.
Qed.

(** A texture grants a CPU write lock it was not created for: the buffer
    is mapped for reading and writing and the address comes back.  A render
    target grants no CPU read. *)
Lemma lock_permission_witness :
  (fst (@gralloc_gbm_bo_lock sample_platform working_backend
          GRALLOC_USAGE_SW_WRITE_OFTEN 0 0 640 480 texture_buffer)
   = (0, Some 0x7f000000)
   /\ trace (snd (@gralloc_gbm_bo_lock sample_platform working_backend
                    GRALLOC_USAGE_SW_WRITE_OFTEN 0 0 640 480 texture_buffer))
      = GbmBoMap 0x5000 0 0 640 480 3 :: trace texture_buffer)
  /\ @gralloc_gbm_bo_lock sample_platform working_backend
       GRALLOC_USAGE_SW_READ_OFTEN 0 0 640 480 render_target
     = (- EINVAL, None, render_target).
Proof.
  split.
  - destruct (@lock_permission sample_platform working_backend texture_buffer
                GRALLOC_USAGE_SW_WRITE_OFTEN 0 0 640 480) as [_ Hwaived].
    erewrite Hwaived; cycle 1;
      [split; reflexivity | vm_compute; discriminate | split; reflexivity].
  - eapply (proj1 (@lock_permission sample_platform working_backend
                     render_target GRALLOC_USAGE_SW_READ_OFTEN 0 0 640 480));
      [reflexivity | discriminate | reflexivity].
Defined.
